(** * Dota-Hero-Snapshot: the reconciliation and aggregation pipeline of script.js

    A shallow embedding of [script.js]: the hero resolver [GetHero], the
    win-rate aggregator [WinRate], the item pipeline [SortItems], [GetItems],
    [MostBought], [MostBoughtItems], and the two button handlers
    [SearchHero] and [RandomHero] with the page they write to.

    Conventions of the embedding.
    - A JavaScript string is a [string]; one character stands for one code
      unit below 256.
    - An integer that the data hold (an id, a counter, a purchase count) is
      a [Z] or an [N]; a number that the program computes with is an IEEE
      binary64 value, a [spec_float] of the standard library at precision
      53: the counters of a hero become doubles before they are added.
    - [undefined] read from an array or an object is [None]; a read of a
      table parsed from JSON also finds the members that the table
      inherits from [Object.prototype].
    - The globals [HERO_STATS], [HERO_CONSTANTS], [ITEM_IDS] and
      [ITEM_CONSTANTS] and the network call [ItemPopularity] are the fields
      of an environment record passed to every function. *)

From Stdlib Require Import ZArith Lia Ascii String DecimalString SpecFloat.
From Stdlib Require Import Sorted Permutation.
From stdpp Require Import base list strings gmap.
From Equations Require Import Equations.

Local Open Scope string_scope.
Local Open Scope Z_scope.
Local Open Scope list_scope.

(** ** JavaScript strings *)

Module JsString.

Definition code (c : ascii) : N := N_of_ascii c.

(** The code units below 256 that [toLowerCase] changes: A-Z and the
    Latin-1 capitals 0xC0-0xDE without the multiplication sign 0xD7. *)
Definition is_upper (c : ascii) : bool :=
  let n := code c in
  ((65 <=? n) && (n <=? 90))%N
  || ((192 <=? n) && (n <=? 222) && negb (n =? 215))%N.

Definition lower_char (c : ascii) : ascii :=
  if is_upper c then ascii_of_N (code c + 32) else c.

(** [s.toLowerCase()] *)
Fixpoint toLowerCase (s : string) : string :=
  match s with
  | EmptyString => EmptyString
  | String c s' => String (lower_char c) (toLowerCase s')
  end.

(** [s.toUpperCase()]: a-z and the Latin-1 small letters 0xE0-0xFE
    without the division sign 0xF7 move down by 32, and the sharp s
    0xDF becomes "SS". (The capitals of 0xB5 and 0xFF lie above 255 and
    have no counterpart here; these two are left as they are.) *)
Definition is_lower (c : ascii) : bool :=
  let n := code c in
  ((97 <=? n) && (n <=? 122))%N
  || ((224 <=? n) && (n <=? 254) && negb (n =? 247))%N.

Fixpoint toUpperCase (s : string) : string :=
  match s with
  | EmptyString => EmptyString
  | String c s' =>
      if (code c =? 223)%N then String "S" (String "S" (toUpperCase s'))
      else String (if is_lower c then ascii_of_N (code c - 32) else c)
                  (toUpperCase s')
  end.

(** [s.startsWith(q)], the test [includes] makes at each position. *)
Fixpoint startsWith (s q : string) {struct q} : bool :=
  match q, s with
  | EmptyString, _ => true
  | String _ _, EmptyString => false
  | String b q', String a s' => Ascii.eqb a b && startsWith s' q'
  end.

(** [s.includes(q)] *)
Fixpoint includes (s q : string) : bool :=
  startsWith s q ||
  match s with
  | EmptyString => false
  | String _ s' => includes s' q
  end.

(** [s] without its first [n] characters, and the first [n]
    characters of [s]. *)
Fixpoint skip_chars (n : nat) (s : string) : string :=
  match n, s with
  | O, _ => s
  | S n', String _ s' => skip_chars n' s'
  | S _, EmptyString => EmptyString
  end.

Fixpoint first_chars (n : nat) (s : string) : string :=
  match n, s with
  | S n', String c s' => String c (first_chars n' s')
  | _, _ => EmptyString
  end.

(** [s.slice(from, to)] for the non-negative integer arguments the
    program passes: both ends are clamped to the length of [s]. *)
Definition slice (s : string) (from to : nat) : string :=
  first_chars (to - from) (skip_chars from s).

(** White space and line terminators below 256, the characters [trim]
    removes. *)
Definition is_space (c : ascii) : bool :=
  let n := code c in
  (((9 <=? n) && (n <=? 13)) || (n =? 32) || (n =? 160))%N.

Fixpoint trimStart (s : string) : string :=
  match s with
  | String c s' => if is_space c then trimStart s' else s
  | EmptyString => EmptyString
  end.

(** Removes trailing white space: a character is dropped when it is a
    space and everything after it has been dropped. *)
Fixpoint trimEnd (s : string) : string :=
  match s with
  | EmptyString => EmptyString
  | String c s' =>
      match trimEnd s' with
      | EmptyString => if is_space c then EmptyString else String c EmptyString
      | t => String c t
      end
  end.

(** [s.trim()] *)
Definition trim (s : string) : string := trimEnd (trimStart s).

End JsString.

Import JsString.

(** ** The hero roster *)

(** One entry of [HERO_STATS]: the fields the program reads. [pick] and
    [win] give the counters [`${i}_pick`] and [`${i}_win`] by bracket
    number [i]. *)
Record HeroRecord := {
  hero_id : Z;
  name : string;
  localized_name : string;
  primary_attr : string;
  pick : nat -> N;
  win : nat -> N
}.

(** ** GetHero *)

(** [hero['name'].slice(14, hero['name'].length)] *)
Definition short_name (hero : HeroRecord) : string :=
  slice (name hero) 14 (String.length (name hero)).

(** The loop of [GetHero] over [HERO_STATS]: the first branch is the
    [continue] of the edge case for Io, the second the [return hero]. *)
Fixpoint GetHero (HERO_STATS : list HeroRecord) (query : string)
  : option HeroRecord :=
  match HERO_STATS with
  | [] => None
  | hero :: rest =>
      if String.eqb query "io"
         && negb (String.eqb (toLowerCase (localized_name hero)) "io")
      then GetHero rest query
      else if includes (toLowerCase (localized_name hero)) query
              || includes (short_name hero) query
      then Some hero
      else GetHero rest query
  end.

(** ** JavaScript numbers: IEEE binary64 *)

Module Number.

Definition prec : Z := 53.
Definition emax : Z := 1024.

(** The binary64 value of an integer literal or integer-valued number. *)
Definition of_Z (z : Z) : spec_float := binary_normalize prec emax z 0 false.
Definition of_N (n : N) : spec_float := of_Z (Z.of_N n).

Definition div : spec_float -> spec_float -> spec_float := SFdiv prec emax.
Definition mul : spec_float -> spec_float -> spec_float := SFmul prec emax.
Definition add : spec_float -> spec_float -> spec_float := SFadd prec emax.

(** [Math.floor(x)] of a finite [x], as an integer; [None] for NaN and
    the infinities, which [Math.floor] returns unchanged. *)
Definition floor (x : spec_float) : option Z :=
  match x with
  | S754_zero _ => Some 0
  | S754_finite s m e =>
      let v := if s then Z.neg m else Z.pos m in
      Some (if 0 <=? e then v * 2 ^ e else v / 2 ^ (- e))
  | _ => None
  end.

(** The integer [n] for which [n / 100 - x] is as close to zero as
    possible, the larger one of two, for [x = m * 2^e]: the floor of
    [100 x + 1/2]. *)
Definition hundredths (m : positive) (e : Z) : N :=
  Z.to_N (if 0 <=? e then 100 * Z.pos m * 2 ^ e
          else (200 * Z.pos m + 2 ^ (- e)) / 2 ^ (1 - e)).

Definition digits (n : N) : string := NilZero.string_of_uint (N.to_uint n).

(** Steps 9-10 of [Number.prototype.toFixed] for two fraction digits:
    pad the digits of [n] to three characters and put the point before
    the last two. *)
Definition point2 (n : N) : string :=
  let m := digits n in
  let k := String.length m in
  let m := (if (k <=? 2)%nat
            then String.concat "" (replicate (3 - k)%nat "0") +:+ m
            else m) in
  let k := String.length m in
  first_chars (k - 2) m +:+ "." +:+ skip_chars (k - 2) m.

(** Whether [m * 2^e] is at least 10^21, the test of step 10 of
    [toFixed]. *)
Definition at_least_1e21 (m : positive) (e : Z) : bool :=
  if 0 <=? e then 10 ^ 21 <=? Z.pos m * 2 ^ e
  else 10 ^ 21 * 2 ^ (- e) <=? Z.pos m.

(** Step 5 of [Number::toString] for a double [x] whose value is the
    integer [v] of [d] decimal digits: integers [s] and [n] with [s] of
    [k] digits and [s * 10^(n - k)] reading back as [x], for the least
    [k] there is. Of such decimals with [k] digits the two next to [v]
    are tried, and the nearer one is taken when both read back (the even
    one when they are as near). A value that reaches the next power of
    ten is that power, with the single digit 1. Seventeen digits always
    read back. *)
Fixpoint shortest (x : spec_float) (v : Z) (d k fuel : nat) : Z * nat :=
  let p := 10 ^ Z.of_nat (d - k) in
  let lo := v / p in
  let hi := lo + 1 in
  let reads_back c := SFeqb (of_Z (c * p)) x in
  let nearest :=
    if v - lo * p <? hi * p - v then lo
    else if hi * p - v <? v - lo * p then hi
    else if Z.even lo then lo else hi in
  let found :=
    match reads_back lo, reads_back hi with
    | true, true => Some nearest
    | true, false => Some lo
    | false, true => Some hi
    | false, false => None
    end in
  match found, fuel with
  | Some s, _ => if s =? 10 ^ Z.of_nat k then (1, S d) else (s, d)
  | None, S fuel' => shortest x v d (S k) fuel'
  | None, O => (lo, d)
  end.

(** [Number::toString] of a double that is at least 10^21, hence an
    integer with [n > 21]: the first digit, the other digits after a
    point if there are any, and the exponent [n - 1]. *)
Definition exponent_form (m : positive) (e : Z) : string :=
  let x := S754_finite false m e in
  let v := if 0 <=? e then Z.pos m * 2 ^ e else Z.pos m / 2 ^ (- e) in
  let d := String.length (digits (Z.to_N v)) in
  let '(s, n) := shortest x v d 1 16 in
  let m := digits (Z.to_N s) in
  let e := digits (N.of_nat (n - 1)) in
  match m with
  | String a EmptyString => String a ("e+" +:+ e)
  | String a b => String a ("." +:+ b +:+ "e+" +:+ e)
  | EmptyString => EmptyString
  end.

(** [x.toFixed(2)]. A value that is not finite prints as its name. Below
    10^21 the digits are those of the exact value of the double, rounded
    to hundredths; from 10^21 on the number is printed as [toString]
    prints it, in exponent notation. *)
Definition toFixed2 (x : spec_float) : string :=
  match x with
  | S754_nan => "NaN"
  | S754_infinity false => "Infinity"
  | S754_infinity true => "-Infinity"
  | S754_zero _ => "0.00"
  | S754_finite s m e =>
      (if s then "-" else "") +:+
      (if at_least_1e21 m e then exponent_form m e
       else point2 (hundredths m e))
  end.

End Number.

(** ** WinRate *)

(** [arr.reduce((a, b) => a + b, 0)]: the numbers are added as doubles,
    from the left, starting from 0. *)
Definition reduce_sum (arr : list spec_float) : spec_float :=
  fold_left Number.add arr (Number.of_Z 0).

(** The arrays [picks] and [wins] built by the loop [i = 1 .. 8]. A
    counter of the record is a number, the double of its integer. *)
Definition picks_of (hero : HeroRecord) : list spec_float :=
  (fun i => Number.of_N (pick hero i)) <$> seq 1 8.
Definition wins_of (hero : HeroRecord) : list spec_float :=
  (fun i => Number.of_N (win hero i)) <$> seq 1 8.

Definition WinRate (hero : HeroRecord) : string :=
  let picks := picks_of hero in
  let wins := wins_of hero in
  let sum_picks := reduce_sum picks in
  let sum_wins := reduce_sum wins in
  let winrate :=
    Number.mul (Number.div sum_wins sum_picks) (Number.of_Z 100) in
  Number.toFixed2 winrate.

(** ** How a call ends *)

Inductive Error := TypeError | FetchError.

(** How the work started by a call ends: it runs to its end, or an
    exception leaves it. The handlers are [async] functions that call
    one another without [await]; an exception then surfaces as the
    rejection of a promise nobody handles, whichever handler was the
    entry point, and that is what [Throw] records. *)
Inductive Completion (A : Type) :=
| Return (a : A)
| Throw (e : Error).
Arguments Return {A} a.
Arguments Throw {A} e.

(** ** Items and the per-phase pipeline *)

(** The value of [item['components']]: the property may be missing, be
    [null], or hold an array of item names. *)
Inductive Components :=
| ComponentsUndefined
| ComponentsNull
| ComponentsArray (names : list string).

(** Truthiness as [if (item['components'])] tests it: an array is an
    object, and every object is truthy, the empty array too. *)
Definition truthy (c : Components) : bool :=
  match c with
  | ComponentsArray _ => true
  | _ => false
  end.

(** A value that [GetItems] pushes, by the three properties the program
    reads from it: [item['id']], a number, and [item['img']], a string,
    each of which may be missing, and [item['components']]. It is an
    entry of [ITEM_CONSTANTS] or a member inherited from
    [Object.prototype]. *)
Record ItemRecord := {
  item_id : option Z;
  img : option string;
  components : Components
}.

#[global] Instance Components_eq_dec : EqDecision Components.
Proof. solve_decision. Defined.
#[global] Instance ItemRecord_eq_dec : EqDecision ItemRecord.
Proof. solve_decision. Defined.

(** One entry of [HERO_CONSTANTS]. *)
Record HeroConstant := { hero_img : string }.

(** The object [stats[period]]: item id (a property key) to purchase
    count, as the list of its entries in the order [Object.keys]
    enumerates them. *)
Definition PeriodItems := list (string * Z).

Inductive Period := early_game_items | mid_game_items | late_game_items.

(** The answer of [heroes/<id>/itemPopularity] when it holds the three
    phase objects. *)
Record Stats := {
  early : PeriodItems;
  mid : PeriodItems;
  late : PeriodItems
}.

Definition stats_get (stats : Stats) (period : Period) : PeriodItems :=
  match period with
  | early_game_items => early stats
  | mid_game_items => mid stats
  | late_game_items => late stats
  end.

(** What [ItemPopularity] comes back with. The request, or the parsing
    of its answer, fails; or the answer is parsed but a phase object is
    missing from it, as from the body of an error message; or the answer
    holds the three phase objects. *)
Inductive Reply :=
| RequestFailed
| PhaseMissing
| Popularity (stats : Stats).

(** The cached tables and the network. A table holds the properties
    that the parsed object has of its own. *)
Record Env := {
  HERO_STATS : list HeroRecord;
  HERO_CONSTANTS : gmap Z HeroConstant;
  ITEM_IDS : gmap string string;
  ITEM_CONSTANTS : gmap string ItemRecord;
  ItemPopularity : Z -> Reply
}.

(** [Array.prototype.sort] with a comparator: a stable sort (ECMAScript
    2019). [cmp a b] not positive means that [a] may stay before [b].
    Insertion from the right end keeps an element in front of the later
    ones it ties with. *)
Fixpoint sort_insert {A} (cmp : A -> A -> Z) (a : A) (l : list A) : list A :=
  match l with
  | [] => [a]
  | b :: l' => if cmp a b <=? 0 then a :: b :: l' else b :: sort_insert cmp a l'
  end.

Fixpoint array_sort {A} (cmp : A -> A -> Z) (l : list A) : list A :=
  match l with
  | [] => []
  | a :: l' => sort_insert cmp a (array_sort cmp l')
  end.

(** The comparator of [SortItems]: [second[1] - first[1]]. *)
Definition by_purchases (first second : string * Z) : Z :=
  second.2 - first.2.

Definition SortItems (periodItems : PeriodItems) : list (string * Z) :=
  let items := periodItems in
  array_sort by_purchases items.

(** The string that a string or [undefined] turns into where a string
    is needed: as a property key, in a template, in a concatenation. *)
Definition property_key (k : option string) : string :=
  match k with
  | Some s => s
  | None => "undefined"
  end.

(** The names of the members of [Object.prototype]. Every object parsed
    from JSON inherits them. *)
Definition object_prototype : list string :=
  ["constructor"; "__defineGetter__"; "__defineSetter__"; "hasOwnProperty";
   "__lookupGetter__"; "__lookupSetter__"; "isPrototypeOf";
   "propertyIsEnumerable"; "toString"; "valueOf"; "__proto__";
   "toLocaleString"].

(** What a read [obj[key]] of a parsed object gives: the value of a
    property of its own, else the member of [Object.prototype] of that
    name, else [undefined]. *)
Inductive Property (A : Type) :=
| Own (a : A)
| Inherited (member : string)
| Undefined.
Arguments Own {A} a.
Arguments Inherited {A} member.
Arguments Undefined {A}.

Definition object_get {A} (obj : gmap string A) (key : string) : Property A :=
  match obj !! key with
  | Some a => Own a
  | None =>
      if existsb (String.eqb key) object_prototype then Inherited key
      else Undefined
  end.

(** The string that an inherited member turns into: [__proto__] reads
    [Object.prototype] itself, [constructor] the function [Object], and
    every other name a function of that name. (The text of a built-in
    function as V8 prints it; engines differ in its white space.) *)
Definition member_text (member : string) : string :=
  if String.eqb member "__proto__" then "[object Object]"
  else "function "
       +:+ (if String.eqb member "constructor" then "Object" else member)
       +:+ "() { [native code] }".

(** The key that the value read from [ITEM_IDS] makes in
    [ITEM_CONSTANTS[item_name]]. *)
Definition name_key (item_name : Property string) : string :=
  match item_name with
  | Own s => s
  | Inherited member => member_text member
  | Undefined => "undefined"
  end.

(** An inherited member where an item is expected: a function, or
    [Object.prototype], has no property [id], [img] or [components]. *)
Definition inherited_member : ItemRecord :=
  {| item_id := None; img := None; components := ComponentsUndefined |}.

(** The two lookups of [GetItems] for one item id, and the test
    [item_obj != undefined]: [Some] is what is pushed. *)
Definition resolve (env : Env) (iid : string) : option ItemRecord :=
  let item_name := object_get (ITEM_IDS env) iid in
  let item_obj := object_get (ITEM_CONSTANTS env) (name_key item_name) in
  match item_obj with
  | Own item => Some item
  | Inherited _ => Some inherited_member
  | Undefined => None
  end.

Fixpoint GetItems (env : Env) (itemIds : list (string * Z)) : list ItemRecord :=
  match itemIds with
  | [] => []
  | entry :: rest =>
      let iid := entry.1 in
      match resolve env iid with
      | Some item_obj => item_obj :: GetItems env rest
      | None => GetItems env rest
      end
  end.

(** [arr.includes(v)] for an array of numbers and a value that is a
    number or [undefined]. *)
Definition array_includes (arr : list Z) (v : option Z) : bool :=
  match v with
  | Some z => existsb (Z.eqb z) arr
  | None => false
  end.

(** The callback given to [objectList.filter] in [MostBought]. *)
Definition interesting (item : ItemRecord) : bool :=
  if array_includes [1; 41; 609] (item_id item) then true
  else if truthy (components item) then true
  else false.

(** The loop [for (let i = 0; filteredItems.length < 5; i++)] of
    [MostBought]. An entry is an item or [undefined], read past the end
    of [objectList]. *)
Equations padding_loop (objectList : list ItemRecord) (i : nat)
    (filteredItems : list (option ItemRecord)) : list (option ItemRecord)
    by wf (5 - length filteredItems)%nat lt :=
  padding_loop objectList i filteredItems
    with decide (length filteredItems < 5)%nat := {
    | left _ => padding_loop objectList (S i)
                  (filteredItems ++ [objectList !! i]);
    | right _ => filteredItems }.
Next Obligation. rewrite length_app. simpl. lia. Qed.

Definition MostBought (env : Env) (period : Period) (stats : Stats)
  : list (option ItemRecord) :=
  let items := SortItems (stats_get stats period) in
  let objectList := GetItems env items in
  let filteredItems := filter (fun item => interesting item = true) objectList in
  padding_loop objectList 0 (Some <$> filteredItems).

(** The object returned by [MostBoughtItems]. *)
Record PhaseItems := {
  early_game : list (option ItemRecord);
  mid_game : list (option ItemRecord);
  late_game : list (option ItemRecord)
}.

(** [arr.slice(0, 5)] *)
Definition slice5 {A} (arr : list A) : list A := take 5 arr.

(** [MostBoughtItems]. It ends with the error of the request when the
    request fails. When the answer lacks a phase object, [stats[period]]
    is [undefined] and [Object.keys] in [SortItems] throws a
    TypeError. *)
Definition MostBoughtItems (env : Env) (heroId : Z) : Completion PhaseItems :=
  match ItemPopularity env heroId with
  | RequestFailed => Throw FetchError
  | PhaseMissing => Throw TypeError
  | Popularity openDotaStats =>
      let earlyGame := MostBought env early_game_items openDotaStats in
      let midGame := MostBought env mid_game_items openDotaStats in
      let lateGame := MostBought env late_game_items openDotaStats in
      Return {| early_game := slice5 earlyGame;
                mid_game := slice5 midGame;
                late_game := slice5 lateGame |}
  end.

(** ** RandomIntFromInterval *)

(** [Math.floor(Math.random() * (max - min + 1) + min)], where [random]
    is the double that [Math.random()] returned, in [0, 1). The result is
    [None] when the floor is not a finite number. *)
Definition RandomIntFromInterval (random : spec_float) (min max : Z)
  : option Z :=
  Number.floor
    (Number.add (Number.mul random (Number.of_Z (max - min + 1)))
                (Number.of_Z min)).

(** What [Math.random()] may return: a binary64 value [r] with
    [0 <= r < 1]. *)
Definition is_random (r : spec_float) : bool :=
  valid_binary Number.prec Number.emax r
  && SFleb (Number.of_Z 0) r && SFltb r (Number.of_Z 1).

(** [arr[k]] for an index computed as a number: [undefined] unless [k]
    is an integer position of [arr]. *)
Definition array_get {A} (arr : list A) (k : option Z) : option A :=
  match k with
  | Some z => if z <? 0 then None else arr !! Z.to_nat z
  | None => None
  end.

(** ** The page and the handlers that write to it *)

(** The elements of the document the script touches. A row holds the
    [src] of each of its children. *)
Record Page := {
  hero_search : string;
  hero_name : string;
  attribute : string;
  winrate : string;
  hero_image : string;
  early_game_row : list string;
  mid_game_row : list string;
  late_game_row : list string;
  alerts : list string
}.

(** A handler: it changes the page and completes. The calls of one
    user action run to completion before the next action starts. *)
Definition Handler (A : Type) : Type := Page -> Page * Completion A.

#[global] Instance Handler_ret : MRet Handler :=
  fun A a page => (page, Return a).
#[global] Instance Handler_bind : MBind Handler :=
  fun A B f m page =>
    match m page with
    | (page', Return a) => f a page'
    | (page', Throw e) => (page', Throw e)
    end.

Definition throw {A} (e : Error) : Handler A := fun page => (page, Throw e).
(** A call that does not touch the page. *)
Definition await {A} (c : Completion A) : Handler A := fun page => (page, c).
Definition modify (f : Page -> Page) : Handler unit :=
  fun page => (f page, Return tt).
(** An [undefined] that the next property read turns into a TypeError. *)
Definition defined {A} (o : option A) : Handler A :=
  match o with
  | Some a => mret a
  | None => throw TypeError
  end.

Definition set_hero_search (v : string) (p : Page) : Page :=
  {| hero_search := v; hero_name := hero_name p; attribute := attribute p;
     winrate := winrate p; hero_image := hero_image p;
     early_game_row := early_game_row p; mid_game_row := mid_game_row p;
     late_game_row := late_game_row p; alerts := alerts p |}.
Definition set_hero_name (v : string) (p : Page) : Page :=
  {| hero_search := hero_search p; hero_name := v; attribute := attribute p;
     winrate := winrate p; hero_image := hero_image p;
     early_game_row := early_game_row p; mid_game_row := mid_game_row p;
     late_game_row := late_game_row p; alerts := alerts p |}.
Definition set_attribute (v : string) (p : Page) : Page :=
  {| hero_search := hero_search p; hero_name := hero_name p; attribute := v;
     winrate := winrate p; hero_image := hero_image p;
     early_game_row := early_game_row p; mid_game_row := mid_game_row p;
     late_game_row := late_game_row p; alerts := alerts p |}.
Definition set_winrate (v : string) (p : Page) : Page :=
  {| hero_search := hero_search p; hero_name := hero_name p;
     attribute := attribute p; winrate := v; hero_image := hero_image p;
     early_game_row := early_game_row p; mid_game_row := mid_game_row p;
     late_game_row := late_game_row p; alerts := alerts p |}.
Definition set_hero_image (v : string) (p : Page) : Page :=
  {| hero_search := hero_search p; hero_name := hero_name p;
     attribute := attribute p; winrate := winrate p; hero_image := v;
     early_game_row := early_game_row p; mid_game_row := mid_game_row p;
     late_game_row := late_game_row p; alerts := alerts p |}.
Definition set_row (period : Period) (v : list string) (p : Page) : Page :=
  {| hero_search := hero_search p; hero_name := hero_name p;
     attribute := attribute p; winrate := winrate p;
     hero_image := hero_image p;
     early_game_row :=
       match period with early_game_items => v | _ => early_game_row p end;
     mid_game_row :=
       match period with mid_game_items => v | _ => mid_game_row p end;
     late_game_row :=
       match period with late_game_items => v | _ => late_game_row p end;
     alerts := alerts p |}.
Definition get_row (period : Period) (p : Page) : list string :=
  match period with
  | early_game_items => early_game_row p
  | mid_game_items => mid_game_row p
  | late_game_items => late_game_row p
  end.
Definition alert (msg : string) : Handler unit :=
  modify (fun p =>
    {| hero_search := hero_search p; hero_name := hero_name p;
       attribute := attribute p; winrate := winrate p;
       hero_image := hero_image p;
       early_game_row := early_game_row p; mid_game_row := mid_game_row p;
       late_game_row := late_game_row p; alerts := alerts p ++ [msg] |}).

(** [attr_dict] *)
Definition attr_dict (key : string) : option string :=
  if String.eqb key "str" then Some "strength"
  else if String.eqb key "agi" then Some "agility"
  else if String.eqb key "int" then Some "intelligence"
  else if String.eqb key "all" then Some "universal"
  else None.

(** One round of the loop of [UpdateItems]: the assignment
    [row.children[i].src = "https://cdn.dota2.com/" + items[i]['img']]
    throws when [items[i]] or [row.children[i]] is undefined. *)
Definition update_child (period : Period) (items : list (option ItemRecord))
    (i : nat) : Handler unit :=
  item ← defined (mjoin (items !! i));
  row ← (fun p => (p, Return (get_row period p)));
  _ ← defined (row !! i);
  modify (set_row period
            (<[i := "https://cdn.dota2.com/" +:+ property_key (img item)]> row)).

Fixpoint for_each (body : nat -> Handler unit) (indices : list nat)
  : Handler unit :=
  match indices with
  | [] => mret tt
  | i :: rest => _ ← body i; for_each body rest
  end.

(** [UpdateItems(row, items)], the row named by its game phase. *)
Definition UpdateItems (period : Period) (items : list (option ItemRecord))
  : Handler unit :=
  for_each (update_child period items) (seq 0 5).

Definition UpdatePage (env : Env) (heroName : string) : Handler unit :=
  match GetHero (HERO_STATS env) heroName with
  | None => alert "Could not find that hero."
  | Some hero =>
      let heroConstant := HERO_CONSTANTS env !! hero_id hero in
      _ ← modify (set_hero_name (toUpperCase (localized_name hero)));
      let attribute := attr_dict (primary_attr hero) in
      let attributeImage :=
        "images/" +:+ property_key attribute +:+ ".png" in
      _ ← defined attribute;
      _ ← modify (set_attribute attributeImage);
      _ ← modify (set_winrate ("Winrate: " +:+ WinRate hero +:+ "%"));
      constant ← defined heroConstant;
      _ ← modify (set_hero_image ("https://cdn.dota2.com/" +:+ hero_img constant));
      items ← await (MostBoughtItems env (hero_id hero));
      _ ← UpdateItems early_game_items (early_game items);
      _ ← UpdateItems mid_game_items (mid_game items);
      UpdateItems late_game_items (late_game items)
  end.

(** [RandomHero], with the value [random] that its call of
    [Math.random()] returns. *)
Definition RandomHero (env : Env) (random : spec_float) : Handler unit :=
  _ ← modify (set_hero_search "");
  targetHero ← defined
    (array_get (HERO_STATS env)
       (RandomIntFromInterval random 0 (Z.of_nat (length (HERO_STATS env)))));
  let heroName := slice (name targetHero) 14 (String.length (name targetHero)) in
  UpdatePage env heroName.

(** [SearchHero]; [random] is what [Math.random()] returns if it is
    called. *)
Definition SearchHero (env : Env) (random : spec_float) : Handler unit :=
  fun page =>
    let heroName := hero_search page in
    let heroName := trim (toLowerCase heroName) in
    if String.eqb heroName "" then RandomHero env random page
    else UpdatePage env heroName page.

(** ** The resolver as the specification words it *)

(** "contains the query as a substring" *)
Definition contains (s q : string) : Prop :=
  exists before after : string, s = before +:+ q +:+ after.

(** The fixed namespace prefix of an internal name, and the name with
    the characters of that prefix taken off its front. *)
Definition namespace_prefix : string := "npc_dota_hero_".

Definition strip_namespace (internalName : string) : string :=
  skip_chars (String.length namespace_prefix) internalName.

(** A roster entry matches a query: its localized name contains it
    without regard to case, or its stripped internal name contains it. *)
Definition matches (query : string) (hero : HeroRecord) : Prop :=
  contains (toLowerCase (localized_name hero)) (toLowerCase query)
  \/ contains (strip_namespace (name hero)) query.

(** [hero] is the first entry of [roster], in roster order, that
    matches [query]. *)
Definition first_match (roster : list HeroRecord) (query : string)
    (hero : HeroRecord) : Prop :=
  exists before after : list HeroRecord,
    roster = before ++ hero :: after
    /\ matches query hero
    /\ Forall (fun h => ~ matches query h) before.

(** ** Example data *)

Definition mkHero (i : Z) (n l a : string) (p w : list N) : HeroRecord :=
  {| hero_id := i; name := n; localized_name := l; primary_attr := a;
     pick := fun k => nth (k - 1) p 0%N; win := fun k => nth (k - 1) w 0%N |}.

Definition lion : HeroRecord :=
  mkHero 26 "npc_dota_hero_lion" "Lion" "int"
    [10; 20; 30; 40; 50; 60; 70; 80]%N [5; 10; 15; 20; 25; 30; 35; 40]%N.
Definition wisp : HeroRecord :=
  mkHero 91 "npc_dota_hero_wisp" "Io" "all"
    [4; 4; 4; 4; 4; 4; 4; 4]%N [2; 2; 2; 2; 2; 2; 2; 2]%N.
Definition antimage : HeroRecord :=
  mkHero 1 "npc_dota_hero_antimage" "Anti-Mage" "agi"
    [100; 100; 100; 100; 150; 150; 150; 150]%N
    [50; 50; 50; 50; 80; 80; 80; 90]%N.

(** ** The item pipeline as the specification words it *)

(** The unfiltered resolvable pool of a phase payload: the items its
    ids resolve to, in ranked order. *)
Definition pool (env : Env) (payload : PeriodItems) : list ItemRecord :=
  GetItems env (SortItems payload).

(** The filtered sequence: the pool after the filter step. *)
Definition filtered (env : Env) (payload : PeriodItems) : list ItemRecord :=
  filter (fun item => interesting item = true) (pool env payload).

(** An entry of the payload passes when its id resolves to an item that
    the filter step keeps. *)
Definition passes (env : Env) (entry : string * Z) : bool :=
  match resolve env entry.1 with
  | Some item => interesting item
  | None => false
  end.

(** The ranked (id, count) pairs behind the filtered sequence. *)
Definition ranked (env : Env) (payload : PeriodItems) : list (string * Z) :=
  filter (fun entry => passes env entry = true) (SortItems payload).

(** [entry] stands for [item] in the filtered sequence. *)
Definition resolved_to (env : Env) (entry : string * Z) (item : ItemRecord)
  : Prop :=
  resolve env entry.1 = Some item /\ interesting item = true.

(** Descending purchase count. *)
Definition descending (first second : string * Z) : Prop :=
  second.2 <= first.2.

(** The entries of [l] with purchase count [c], in the order of [l]. *)
Definition with_count (c : Z) (l : list (string * Z)) : list (string * Z) :=
  filter (fun entry => entry.2 = c) l.

(** The filter rule of the specification: a fixed id, or a components
    list that is present and not empty. *)
Definition kept_if_nonempty (item : ItemRecord) : Prop :=
  (exists i, item_id item = Some i /\ i ∈ [1; 41; 609])
  \/ exists names, components item = ComponentsArray names /\ names <> [].

(** The filter rule of the code: a fixed id, or a components list that
    is present. *)
Definition kept_if_present (item : ItemRecord) : Prop :=
  (exists i, item_id item = Some i /\ i ∈ [1; 41; 609])
  \/ exists names, components item = ComponentsArray names.


(** ** The win rate as the specification words it *)

Definition total_picks (hero : HeroRecord) : N :=
  (pick hero 1 + pick hero 2 + pick hero 3 + pick hero 4
   + pick hero 5 + pick hero 6 + pick hero 7 + pick hero 8)%N.

Definition total_wins (hero : HeroRecord) : N :=
  (win hero 1 + win hero 2 + win hero 3 + win hero 4
   + win hero 5 + win hero 6 + win hero 7 + win hero 8)%N.

(** [100 * wins / picks] in hundredths, rounded to the nearest integer,
    a half upwards. *)
Definition rounded_hundredths (wins picks : N) : N :=
  ((20000 * wins + picks) / (2 * picks))%N.

(** The win rate of the specification: the exact quotient rounded to
    two decimal places. *)
Definition exact_WinRate (hero : HeroRecord) : string :=
  Number.point2 (rounded_hundredths (total_wins hero) (total_picks hero)).

(** The double that [WinRate] hands to [toFixed]. *)
Definition winrate_double (wins picks : N) : spec_float :=
  Number.mul (Number.div (Number.of_N wins) (Number.of_N picks))
             (Number.of_Z 100).

(** ** More example data *)

(** A hero without a recorded game, and one with 23 wins in 160 games. *)
Definition unplayed : HeroRecord :=
  mkHero 200 "npc_dota_hero_new" "New Hero" "str" [] [].
Definition seldom : HeroRecord :=
  mkHero 201 "npc_dota_hero_seldom" "Seldom" "str"
    [20; 20; 20; 20; 20; 20; 20; 20]%N [3; 3; 3; 3; 3; 3; 3; 2]%N.

Definition mkItem (i : Z) (file : string) (c : Components) : ItemRecord :=
  {| item_id := Some i; img := Some file; components := c |}.

Definition branches := mkItem 16 "/img/branches.png" ComponentsNull.
Definition tango := mkItem 44 "/img/tango.png" ComponentsNull.
Definition tpscroll := mkItem 46 "/img/tpscroll.png" ComponentsNull.
Definition power_treads :=
  mkItem 63 "/img/power_treads.png"
    (ComponentsArray ["boots"; "gloves"; "belt_of_strength"]).
Definition bfury :=
  mkItem 145 "/img/bfury.png" (ComponentsArray ["pers"; "quelling_blade"]).
Definition shard := mkItem 609 "/img/shard.png" ComponentsNull.
(** An item whose components list is present and empty. *)
Definition plain := mkItem 2 "/img/plain.png" (ComponentsArray []).

Definition example_ids : gmap string string :=
  list_to_map
    [("16", "branches"); ("44", "tango"); ("46", "tpscroll");
     ("63", "power_treads"); ("145", "bfury"); ("609", "aghanims_shard");
     ("700", "retired")].

Definition example_items : gmap string ItemRecord :=
  list_to_map
    [("branches", branches); ("tango", tango); ("tpscroll", tpscroll);
     ("power_treads", power_treads); ("bfury", bfury);
     ("aghanims_shard", shard)].

(** Three payloads: six ids of which five resolve; three ids; one id. *)
Definition example_stats : Stats :=
  {| early := [("16", 300); ("44", 500); ("46", 500); ("63", 120);
               ("145", 7); ("9999", 80)];
     mid := [("44", 50); ("63", 40); ("609", 5)];
     late := [("44", 9)] |}.

Definition example_env : Env :=
  {| HERO_STATS := [lion; wisp; antimage];
     HERO_CONSTANTS :=
       list_to_map [(26, {| hero_img := "/img/lion.png" |});
                    (91, {| hero_img := "/img/wisp.png" |});
                    (1, {| hero_img := "/img/antimage.png" |})];
     ITEM_IDS := example_ids;
     ITEM_CONSTANTS := example_items;
     ItemPopularity := fun _ => Popularity example_stats |}.

(** A page whose search field holds two blanks. *)
Definition example_page : Page :=
  {| hero_search := "  "; hero_name := ""; attribute := ""; winrate := "";
     hero_image := "";
     early_game_row := replicate 5 ""; mid_game_row := replicate 5 "";
     late_game_row := replicate 5 ""; alerts := [] |}.

(** The double 0.75. *)
Definition three_quarters : spec_float :=
  S754_finite false 6755399441055744 (-53).

(** ** Vocabulary for the rounding of doubles *)

(** [V] lies in [[m U, (m+1) U)], and the round bit [r] and the sticky
    bit [s] say where: [r] that it is in the upper half, [s] that it is
    neither at the lower end nor in the middle. *)
Definition located (V U m : Z) (r s : bool) : Prop :=
  0 < U /\ 0 <= m /\ m * U <= V < (m + 1) * U
  /\ (r = true <-> U <= 2 * (V - m * U))
  /\ (s = true <-> (V - m * U <> 0 /\ 2 * (V - m * U) <> U)).

(** The location of the remainder [a] of a division by [b]. *)
Definition loc_of (a b : Z) : location :=
  if a =? 0 then loc_Exact else loc_Inexact (2 * a ?= b).

(** The mantissa of a shifted record after rounding to nearest, ties to
    even. *)
Definition round_record (mrs : shr_record) : Z :=
  round_nearest_even (shr_m mrs) (loc_of_shr_record mrs).

(** The double 100. *)
Definition hundred : spec_float := S754_finite false 7036874417766400 (-46).

(** ** Vocabulary for the page *)

(** The address that [UpdateItems] writes for an item. *)
Definition item_src (item : ItemRecord) : string :=
  "https://cdn.dota2.com/" +:+ property_key (img item).

(** The five items of a phase when none is missing: the filtered ones,
    then pool items, cut to five. *)
Definition top_five (env : Env) (payload : PeriodItems) : list ItemRecord :=
  take 5 (filtered env payload
          ++ take (5 - length (filtered env payload)) (pool env payload)).

(** Popularity data whose three phases all have five resolvable items,
    and the tables to go with it. *)
Definition full_stats : Stats :=
  {| early := early example_stats;
     mid := [("16", 30); ("44", 20); ("46", 25); ("63", 90); ("145", 70)];
     late := [("16", 1); ("44", 2); ("46", 3); ("63", 40); ("145", 95);
              ("609", 60)] |}.

Definition full_env : Env :=
  {| HERO_STATS := HERO_STATS example_env;
     HERO_CONSTANTS := HERO_CONSTANTS example_env;
     ITEM_IDS := example_ids;
     ITEM_CONSTANTS := example_items;
     ItemPopularity := fun _ => Popularity full_stats |}.

(** ** Facts about strings *)

Section Strings.

Lemma startsWith_spec (s q : string) :
  startsWith s q = true <-> exists after, s = q +:+ after.
Proof.
  revert s. induction q as [|b q IH]; intros s; simpl.
  - split; [intros _; by exists s | done].
  - destruct s as [|a s]; simpl.
    + split; [done | intros [after H]; discriminate].
    + rewrite andb_true_iff, IH. split.
      * intros [Hab [after ->]]. apply Ascii.eqb_eq in Hab as ->. by exists after.
      * intros [after H]. injection H as -> ->. split; [apply Ascii.eqb_refl | by exists after].
Qed.

Lemma includes_spec (s q : string) : includes s q = true <-> contains s q.
Proof.
  unfold contains. induction s as [|a s IH].
  - simpl. rewrite orb_false_r, startsWith_spec. split.
    + intros [after H]. by exists EmptyString, after.
    + intros [[|c before] [after H]]; [by exists after | discriminate].
  - cbn [includes]. rewrite orb_true_iff, IH, startsWith_spec. split.
    + intros [[after H] | (before & after & H)].
      * by exists EmptyString, after.
      * exists (String a before), after. simpl. by rewrite H.
    + intros [[|c before] [after H]].
      * left. by exists after.
      * right. simpl in H. injection H as -> ->. by exists before, after.
Qed.

Lemma first_chars_ge (n : nat) (s : string) :
  (String.length s <= n)%nat -> first_chars n s = s.
Proof.
  revert n. induction s as [|a s IH]; intros [|n] H; simpl in *; try done; try lia.
  f_equal. apply IH. lia.
Qed.

Lemma skip_chars_length (n : nat) (s : string) :
  String.length (skip_chars n s) = (String.length s - n)%nat.
Proof.
  revert s. induction n as [|n IH]; intros [|a s]; simpl; try done; lia.
Qed.

(** [s.slice(n, s.length)] drops the first [n] characters. *)
Lemma slice_to_end (n : nat) (s : string) :
  slice s n (String.length s) = skip_chars n s.
Proof.
  unfold slice. apply first_chars_ge. rewrite skip_chars_length. lia.
Qed.

Lemma short_name_strip (hero : HeroRecord) :
  short_name hero = strip_namespace (name hero).
Proof. unfold short_name, strip_namespace. apply slice_to_end. Qed.

Lemma skip_chars_app (p rest : string) :
  skip_chars (String.length p) (p +:+ rest) = rest.
Proof. induction p; simpl; done. Qed.

(** On an internal name that carries the prefix, stripping leaves what
    follows the prefix. *)
Lemma strip_namespace_prefixed (rest : string) :
  strip_namespace (namespace_prefix +:+ rest) = rest.
Proof. unfold strip_namespace. apply skip_chars_app. Qed.

End Strings.

(** ** The hero resolver *)

Section Resolver.

Implicit Types (roster : list HeroRecord) (query : string) (hero : HeroRecord).

(** The test of the second [if] of the loop decides [matches] for a
    lower-cased query. *)
Lemma match_test query hero :
  toLowerCase query = query ->
  includes (toLowerCase (localized_name hero)) query
    || includes (short_name hero) query = true
  <-> matches query hero.
Proof.
  intros Hq. unfold matches.
  rewrite orb_true_iff, !includes_spec, short_name_strip, Hq. done.
Qed.

(** Away from the Io edge case the loop is a plain search. *)
Lemma GetHero_cons_other roster query hero :
  query <> "io" ->
  GetHero (hero :: roster) query =
    if includes (toLowerCase (localized_name hero)) query
       || includes (short_name hero) query
    then Some hero else GetHero roster query.
Proof.
  intros Hio. cbn [GetHero].
  destruct (String.eqb_spec query "io") as [->|_]; [done|].
  done.
Qed.

Lemma GetHero_Some_first roster query hero :
  toLowerCase query = query -> query <> "io" ->
  GetHero roster query = Some hero <-> first_match roster query hero.
Proof.
  intros Hq Hio. induction roster as [|h roster IH].
  - split; [done|]. intros ([|? ?] & after & H & _); discriminate.
  - rewrite GetHero_cons_other by done.
    destruct (includes _ _ || includes _ _) eqn:Htest.
    + apply match_test in Htest; [|done]. split.
      * intros [= <-]. exists [], roster. by repeat split.
      * intros ([|h' before] & after & Heq & Hm & Hnone).
        -- by injection Heq as ->.
        -- injection Heq as -> _. by apply Forall_cons in Hnone as [Hno _].
    + assert (~ matches query h) as Hno.
      { rewrite <- match_test by done. by rewrite Htest. }
      rewrite IH. split.
      * intros (before & after & -> & Hm & Hnone).
        exists (h :: before), after. repeat split; [done|]. by constructor.
      * intros ([|h' before] & after & Heq & Hm & Hnone).
        -- injection Heq as -> _. done.
        -- injection Heq as -> ->. apply Forall_cons in Hnone as [_ Hnone].
           by exists before, after.
Qed.

Lemma GetHero_None_no_match roster query :
  toLowerCase query = query -> query <> "io" ->
  GetHero roster query = None <-> Forall (fun h => ~ matches query h) roster.
Proof.
  intros Hq Hio. induction roster as [|h roster IH].
  - split; [constructor | done].
  - rewrite GetHero_cons_other by done.
    destruct (includes _ _ || includes _ _) eqn:Htest.
    + apply match_test in Htest; [|done]. split; [done|].
      intros [Hno _]%Forall_cons. done.
    + rewrite IH, Forall_cons. rewrite <- (match_test query h) by done.
      rewrite Htest. split; [intros ?; split; [discriminate | done] | by intros [_ ?]].
Qed.

(** C5. For every lower-cased query other than "io" (trimmed or not) and
    every roster, [GetHero] returns a hero exactly when that hero is the
    first entry in roster order whose lower-cased localized name contains
    the query or whose internal name without its namespace prefix
    contains the query, and it returns [null] exactly when no entry of
    the roster matches. *)
Theorem GetHero_first_match_or_null roster query :
  toLowerCase query = query ->
  query <> "io" ->
  (forall hero, GetHero roster query = Some hero <-> first_match roster query hero)
  /\ (GetHero roster query = None
      <-> Forall (fun h => ~ matches query h) roster).
Proof.
  intros Hq Hio. split.
  - intros hero. by apply GetHero_Some_first.
  - by apply GetHero_None_no_match.
Qed.

(** The query "anti" on a roster of three. *)
Lemma GetHero_first_match_or_null_witness :
  toLowerCase "anti" = "anti" /\ "anti" <> "io"
  /\ first_match [lion; wisp; antimage] "anti" antimage.
Proof.
  assert (toLowerCase "anti" = "anti") as Hq by reflexivity.
  assert ("anti" <> "io") as Hio by discriminate.
  repeat split; try done.
  apply (GetHero_first_match_or_null [lion; wisp; antimage] "anti" Hq Hio).
  reflexivity.
Defined.

Lemma GetHero_io_elem roster hero :
  GetHero roster "io" = Some hero ->
  hero ∈ roster /\ toLowerCase (localized_name hero) = "io".
Proof.
  induction roster as [|h roster IH]; [done|].
  cbn [GetHero]. change (String.eqb "io" "io") with true. cbn [andb].
  destruct (String.eqb_spec (toLowerCase (localized_name h)) "io") as [Hname|Hname];
    cbn [negb].
  - destruct (includes _ _ || includes _ _).
    + intros [= <-]. split; [left | done].
    + intros [Hin ?]%IH. split; [by right | done].
  - intros [Hin ?]%IH. split; [by right | done].
Qed.

(** C6. For every roster, the query "io" is never resolved to a hero
    whose lower-cased localized name is not exactly "io", whatever the
    names of that hero contain. *)
Theorem GetHero_io_only_exact roster hero :
  toLowerCase (localized_name hero) <> "io" ->
  GetHero roster "io" <> Some hero.
Proof. intros Hname Hget. by apply GetHero_io_elem in Hget as [_ ?]. Qed.

(** Lion comes first and its name contains "io"; it is not the answer. *)
Lemma GetHero_io_only_exact_witness :
  toLowerCase (localized_name lion) <> "io"
  /\ contains (toLowerCase (localized_name lion)) "io"
  /\ GetHero [lion; wisp; antimage] "io" <> Some lion.
Proof.
  assert (toLowerCase (localized_name lion) <> "io") as Hname by discriminate.
  repeat split; [done | by exists "l", "n" |].
  exact (GetHero_io_only_exact [lion; wisp; antimage] lion Hname).
Defined.

End Resolver.

(** ** Rounding to binary64

    [SFdiv] and [SFmul] round to nearest; on positive doubles with full
    mantissas the result is within a factor 1 +- 2^-53 of the exact
    quotient or product. *)

Section Binary64.

Section IterPos.
Context {A : Type} (f : A -> A).

Lemma iter_pos_nat (p : positive) (x : A) :
  SpecFloat.iter_pos f p x = Nat.iter (Pos.to_nat p) f x.
Proof.
  revert x. induction p as [p IH|p IH|]; intros x; cbn [SpecFloat.iter_pos].
  - rewrite !IH, Pos2Nat.inj_xI.
    rewrite <- Nat.iter_add, <- Nat.iter_succ_r.
    f_equal. lia.
  - rewrite !IH, Pos2Nat.inj_xO. rewrite <- Nat.iter_add. f_equal. lia.
  - reflexivity.
Qed.
End IterPos.

Lemma shr_1_located V U m r s :
  located V U m r s ->
  located V (2 * U) (shr_m (shr_1 (Build_shr_record m r s)))
    (shr_r (shr_1 (Build_shr_record m r s)))
    (shr_s (shr_1 (Build_shr_record m r s)))
  /\ shr_m (shr_1 (Build_shr_record m r s)) = m / 2.
Proof.
  intros (HU & Hm & HV & Hr & Hs).
  assert (r || s = true <-> V - m * U <> 0) as Hrs.
  { rewrite orb_true_iff, Hr, Hs. lia. }
  unfold located.
  destruct m as [|[p|p|]|p]; simpl shr_1; cbn [shr_m shr_r shr_s]; try lia;
    rewrite Hrs;
    try change (Z.pos p~1) with (2 * Z.pos p + 1) in *;
    try change (Z.pos p~0) with (2 * Z.pos p) in *;
    (split; [|try lia]); repeat split; try lia; try discriminate.
  - apply Z.div_unique with 1; lia.
  - apply Z.div_unique with 0; lia.
Qed.

Lemma iter_shr_1_located V U m r s (k : nat) :
  located V U m r s ->
  let mrs := Nat.iter k shr_1 (Build_shr_record m r s) in
  located V (2 ^ Z.of_nat k * U) (shr_m mrs) (shr_r mrs) (shr_s mrs)
  /\ shr_m mrs = m / 2 ^ Z.of_nat k.
Proof.
  intros Hloc. induction k as [|k IH].
  - simpl. rewrite Z.div_1_r. split; [|done]. by destruct U.
  - cbn zeta in *. rewrite Nat.iter_succ.
    destruct (Nat.iter k shr_1 _) as [m' r' s'] eqn:E.
    cbn [shr_m shr_r shr_s] in IH. destruct IH as [IH Hm'].
    destruct (shr_1_located _ _ _ _ _ IH) as [H1 H2].
    rewrite Nat2Z.inj_succ, Z.pow_succ_r by lia.
    split.
    + replace (2 * 2 ^ Z.of_nat k * U) with (2 * (2 ^ Z.of_nat k * U)) by ring. exact H1.
    + rewrite H2, Hm'. rewrite Z.div_div by lia. f_equal. ring.
Qed.

Lemma record_of_loc_located (m a b : Z) :
  0 <= m -> 0 <= a < b ->
  let mrs := shr_record_of_loc m (loc_of a b) in
  located (m * b + a) b m (shr_r mrs) (shr_s mrs) /\ shr_m mrs = m.
Proof.
  intros Hm Hab. unfold loc_of, located.
  destruct (Z.eqb_spec a 0) as [->|Ha]; cbn [shr_record_of_loc shr_r shr_s shr_m].
  - repeat split; try lia; try discriminate; intros; exfalso; lia.
  - destruct (Z.compare_spec (2 * a) b); cbn [shr_record_of_loc shr_r shr_s shr_m];
      repeat split; try lia; try discriminate; intros; exfalso; lia.
Qed.

Lemma round_located V U m r s :
  located V U m r s ->
  let m1 := round_record (Build_shr_record m r s) in
  m <= m1 <= m + 1 /\ 2 * Z.abs (m1 * U - V) <= U.
Proof.
  intros (HU & Hm & HV & Hr & Hs). unfold round_record. cbn [shr_m].
  destruct r, s; cbn [loc_of_shr_record round_nearest_even].
  - assert (U <= 2 * (V - m * U)) by (by apply Hr).
    assert (2 * (V - m * U) <> U) by (by apply Hs). lia.
  - assert (U <= 2 * (V - m * U)) by (by apply Hr).
    assert (~ (V - m * U <> 0 /\ 2 * (V - m * U) <> U)) by (rewrite <- Hs; discriminate).
    destruct (Z.even m); lia.
  - assert (~ U <= 2 * (V - m * U)) by (rewrite <- Hr; discriminate). lia.
  - assert (~ U <= 2 * (V - m * U)) by (rewrite <- Hr; discriminate). lia.
Qed.

Lemma digits2_bounds (p : positive) :
  2 ^ (Z.pos (digits2_pos p) - 1) <= Z.pos p < 2 ^ Z.pos (digits2_pos p).
Proof.
  induction p as [p IH|p IH|]; cbn [digits2_pos].
  - rewrite Pos2Z.inj_succ. replace (Z.succ (Z.pos (digits2_pos p)) - 1) with (Z.succ (Z.pos (digits2_pos p) - 1)) by lia.
    rewrite !Z.pow_succ_r by lia. change (Z.pos p~1) with (2 * Z.pos p + 1). lia.
  - rewrite Pos2Z.inj_succ. replace (Z.succ (Z.pos (digits2_pos p)) - 1) with (Z.succ (Z.pos (digits2_pos p) - 1)) by lia.
    rewrite !Z.pow_succ_r by lia. change (Z.pos p~0) with (2 * Z.pos p). lia.
  - simpl. lia.
Qed.

Lemma digits2_unique (p : positive) (d : Z) :
  2 ^ (d - 1) <= Z.pos p < 2 ^ d -> Z.pos (digits2_pos p) = d.
Proof.
  intros H. pose proof (digits2_bounds p) as Hp.
  assert (0 < d).
  { destruct (Z.ltb_spec 0 d); [done|]. 
    assert (2 ^ d <= 2 ^ 0) by (apply Z.pow_le_mono_r; lia). simpl in *. lia. }
  destruct (Z.lt_trichotomy (Z.pos (digits2_pos p)) d) as [Hlt|[->|Hgt]]; [|done|].
  - assert (2 ^ Z.pos (digits2_pos p) <= 2 ^ (d - 1)) by (apply Z.pow_le_mono_r; lia). lia.
  - assert (2 ^ d <= 2 ^ (Z.pos (digits2_pos p) - 1)) by (apply Z.pow_le_mono_r; lia). lia.
Qed.

Lemma shr_spec V U m r s ex (n : Z) :
  0 <= n -> located V U m r s ->
  let '(mrs, e) := shr (Build_shr_record m r s) ex n in
  located V (2 ^ n * U) (shr_m mrs) (shr_r mrs) (shr_s mrs)
  /\ shr_m mrs = m / 2 ^ n /\ e = ex + n.
Proof.
  intros Hn Hloc. destruct n as [|p|p]; [| |lia]; simpl shr.
  - cbn [shr_m shr_r shr_s]. rewrite Z.pow_0_r, Z.div_1_r, Z.mul_1_l, Z.add_0_r.
    done.
  - rewrite iter_pos_nat.
    destruct (iter_shr_1_located V U m r s (Pos.to_nat p) Hloc) as [H1 H2].
    rewrite positive_nat_Z in *. done.
Qed.

Lemma binary_round_aux_spec sx (mx : positive) ex a b :
  0 <= a < b ->
  let n := Z.pos (digits2_pos mx) - 53 in
  0 <= n -> -1074 <= ex + n -> ex + n + 1 <= 971 ->
  exists m2 e2,
    binary_round_aux 53 1024 sx (Z.pos mx) ex (loc_of a b) = S754_finite sx m2 e2
    /\ 2 ^ 52 <= Z.pos m2 < 2 ^ 53
    /\ ex + n <= e2 <= ex + n + 1
    /\ 2 * Z.abs (Z.pos m2 * 2 ^ (e2 - ex) * b - (Z.pos mx * b + a)) <= 2 ^ n * b.
Proof.
  intros Hab n Hn Hlo Hhi.
  unfold binary_round_aux, shr_fexp.
  replace (fexp 53 1024 (Zdigits2 (Z.pos mx) + ex) - ex) with n
    by (unfold fexp, emin, Zdigits2; lia).
  destruct (record_of_loc_located (Z.pos mx) a b) as [Hloc Hm0]; [lia | lia |].
  destruct (shr_record_of_loc (Z.pos mx) (loc_of a b)) as [m0 r0 s0].
  cbn [shr_m shr_r shr_s] in Hloc, Hm0. subst m0.
  pose proof (shr_spec _ _ _ _ _ ex n Hn Hloc) as Hshr.
  destruct (shr _ ex n) as [[m' r' s'] e'].
  cbn [shr_m shr_r shr_s] in Hshr. destruct Hshr as (Hloc' & Hm' & ->).
  pose proof (round_located _ _ _ _ _ Hloc') as [Hm1 Hbound].
  unfold round_record in Hm1, Hbound. cbn [shr_m] in Hm1, Hbound |- *.
  set (m1 := round_nearest_even m' _) in *.
  assert (2 ^ 52 <= m' < 2 ^ 53) as Hm'b.
  { pose proof (digits2_bounds mx) as Hd.
    replace (Z.pos (digits2_pos mx) - 1) with (n + 52) in Hd by lia.
    replace (Z.pos (digits2_pos mx)) with (n + 53) in Hd by lia.
    rewrite !Z.pow_add_r in Hd by lia.
    assert (0 < 2 ^ n) by (apply Z.pow_pos_nonneg; lia).
    subst m'. split.
    - apply Z.div_le_lower_bound; lia.
    - apply Z.div_lt_upper_bound; lia. }
  destruct (Z.ltb_spec m1 (2 ^ 53)) as [Hsmall|Hcarry].
  - destruct m1 as [|p1|p1] eqn:Em1; try lia.
    assert (Z.pos (digits2_pos p1) = 53) as Hd1 by (apply digits2_unique; lia).
    replace (fexp 53 1024 (Zdigits2 (Z.pos p1) + (ex + n)) - (ex + n)) with 0
      by (unfold fexp, emin, Zdigits2; lia).
    cbn [shr shr_record_of_loc shr_m].
    replace (ex + n <=? 1024 - 53) with true by (symmetry; apply Z.leb_le; lia).
    exists p1, (ex + n). repeat split; try lia.
    replace (ex + n - ex) with n by lia.
    replace (Z.pos p1 * 2 ^ n * b) with (Z.pos p1 * (2 ^ n * b)) by ring. exact Hbound.
  - assert (m1 = 2 ^ 53) as Em1 by lia.
    rewrite Em1 in *. 
    replace (fexp 53 1024 (Zdigits2 (2 ^ 53) + (ex + n)) - (ex + n)) with 1
      by (unfold fexp, emin; change (Zdigits2 (2 ^ 53)) with 54; lia).
    change (shr (shr_record_of_loc (2 ^ 53) loc_Exact) (ex + n) 1)
      with ({| shr_m := 2 ^ 52; shr_r := false; shr_s := false |}, ex + n + 1).
    cbn [shr_m]. change (2 ^ 52) with (Z.pos (2 ^ 52)).
    replace (ex + n + 1 <=? 1024 - 53) with true by (symmetry; apply Z.leb_le; lia).
    exists (2 ^ 52)%positive, (ex + n + 1). repeat split; try lia.
    replace (ex + n + 1 - ex) with (n + 1) by lia.
    rewrite Z.pow_add_r by lia.
    replace (Z.pos (2 ^ 52) * (2 ^ n * 2 ^ 1) * b) with (2 ^ 53 * (2 ^ n * b))
      by (change (Z.pos (2 ^ 52)) with (2 ^ 52); change (2 ^ 53) with (2 ^ 52 * 2 ^ 1); ring).
    exact Hbound.
Qed.

(** The same with the error relative to the rounded value: at most
    2^-53 of it. *)
Lemma binary_round_aux_rel sx (mx : positive) ex a b :
  0 <= a < b ->
  let n := Z.pos (digits2_pos mx) - 53 in
  0 <= n -> -1074 <= ex + n -> ex + n + 1 <= 971 ->
  exists m2 e2,
    binary_round_aux 53 1024 sx (Z.pos mx) ex (loc_of a b) = S754_finite sx m2 e2
    /\ 2 ^ 52 <= Z.pos m2 < 2 ^ 53
    /\ ex + n <= e2 <= ex + n + 1
    /\ 2 * Z.abs (Z.pos m2 * 2 ^ (e2 - ex) * b - (Z.pos mx * b + a)) <= 2 ^ n * b
    /\ 2 ^ 53 * Z.abs (Z.pos m2 * 2 ^ (e2 - ex) * b - (Z.pos mx * b + a))
       <= Z.pos mx * b + a.
Proof.
  intros Hab n Hn Hlo Hhi.
  destruct (binary_round_aux_spec sx mx ex a b Hab Hn Hlo Hhi)
    as (m2 & e2 & Heq & Hm2 & He2 & Habs).
  exists m2, e2. repeat split; try done; try lia.
  pose proof (digits2_bounds mx) as Hd.
  replace (Z.pos (digits2_pos mx) - 1) with (52 + n) in Hd by lia.
  rewrite Z.pow_add_r in Hd by lia.
  assert (2 ^ 52 * 2 ^ n * b <= Z.pos mx * b) as Hmul
    by (apply Z.mul_le_mono_nonneg_r; lia).
  fold n in Habs. lia.
Qed.

Lemma new_location_loc_of (b r : Z) :
  0 <= r < b -> new_location b r = loc_of r b.
Proof.
  intros Hr. unfold new_location, loc_of, new_location_even, new_location_odd.
  destruct (Z.even b) eqn:Hb; [done|].
  destruct (Z.eqb_spec r 0); [done|]. f_equal.
  assert (Z.odd b = true) as Hodd by (rewrite <- Z.negb_even, Hb; done).
  apply Z.odd_spec in Hodd as [k Hk].
  destruct (Z.compare_spec (2 * r + 1) b), (Z.compare_spec (2 * r) b); try done; lia.
Qed.

Lemma shift_pos_value (k p : positive) :
  Z.pos (Pos.iter xO p k) = Z.pos p * 2 ^ Z.pos k.
Proof.
  change (Pos.iter xO p k) with (shift_pos k p).
  rewrite shift_pos_correct, Zpower_pos_nat, Zpower_nat_Z, positive_nat_Z. ring.
Qed.

(** An integer below 2^53 is a double: its mantissa is the integer
    shifted to 53 bits. *)
Lemma normalize_pos (p : positive) :
  Z.pos p < 2 ^ 53 ->
  exists m u,
    binary_normalize 53 1024 (Z.pos p) 0 false = S754_finite false m (- u)
    /\ 0 <= u <= 52
    /\ Z.pos m = Z.pos p * 2 ^ u
    /\ 2 ^ 52 <= Z.pos m < 2 ^ 53.
Proof.
  intros Hp. pose proof (digits2_bounds p) as Hd.
  set (d := Z.pos (digits2_pos p)) in *.
  assert (1 <= d) by (subst d; lia).
  assert (d <= 53) as Hd53.
  { destruct (Z.leb_spec d 53); [done|].
    assert (2 ^ 53 <= 2 ^ (d - 1)) by (apply Z.pow_le_mono_r; lia). lia. }
  assert (exists mz, shl_align p 0 (fexp 53 1024 (d + 0)) = (mz, d - 53)
                     /\ Z.pos mz = Z.pos p * 2 ^ (53 - d)) as (mz & Hal & Hmz).
  { assert (fexp 53 1024 (d + 0) = d - 53) as ->
      by (unfold fexp, emin; lia).
    unfold shl_align. rewrite Z.sub_0_r.
    destruct (d - 53) as [|k|k] eqn:Ek; try lia.
    - exists p. replace (53 - d) with 0 by lia. split; [done|].
      rewrite Z.pow_0_r. lia.
    - exists (Pos.iter xO p k). split; [done|].
      rewrite shift_pos_value. f_equal. f_equal. lia. }
  assert (2 ^ 52 <= Z.pos mz < 2 ^ 53) as Hmzb.
  { rewrite Hmz.
    assert (0 < 2 ^ (53 - d)) by (apply Z.pow_pos_nonneg; lia).
    replace (2 ^ 52) with (2 ^ (d - 1) * 2 ^ (53 - d))
      by (rewrite <- Z.pow_add_r by lia; f_equal; lia).
    replace (2 ^ 53) with (2 ^ d * 2 ^ (53 - d))
      by (rewrite <- Z.pow_add_r by lia; f_equal; lia).
    split; [apply Z.mul_le_mono_nonneg_r | apply Z.mul_lt_mono_pos_r]; lia. }
  assert (Z.pos (digits2_pos mz) = 53) as Hdz by (apply digits2_unique; lia).
  unfold binary_normalize, binary_round. fold d. rewrite Hal.
  change loc_Exact with (loc_of 0 1).
  destruct (binary_round_aux_spec false mz (d - 53) 0 1)
    as (m2 & e2 & -> & Hm2 & He2 & Habs); try lia.
  rewrite Hdz in *. 
  assert (e2 = d - 53) as ->.
  { destruct (Z.eq_dec e2 (d - 53)) as [|Hne]; [done|].
    replace (e2 - (d - 53)) with 1 in Habs by lia. lia. }
  replace (d - 53 - (d - 53)) with 0 in Habs by lia.
  exists m2, (53 - d). repeat split; try lia.
  f_equal. lia.
Qed.

(** The quotient of two positive doubles with 53-bit mantissas. *)
Lemma SFdiv_rel (mw mp : positive) (u v : Z) :
  2 ^ 52 <= Z.pos mw < 2 ^ 53 -> 2 ^ 52 <= Z.pos mp < 2 ^ 53 ->
  0 <= u <= 52 -> 0 <= v <= 52 ->
  exists m1 e1,
    SFdiv 53 1024 (S754_finite false mw (- u)) (S754_finite false mp (- v))
      = S754_finite false m1 e1
    /\ 2 ^ 52 <= Z.pos m1 < 2 ^ 53
    /\ v - u - 53 <= e1 <= v - u - 51
    /\ 2 ^ 53 * Z.abs (Z.pos m1 * 2 ^ (e1 - (v - u - 53)) * Z.pos mp
                       - Z.pos mw * 2 ^ 53)
       <= Z.pos mw * 2 ^ 53.
Proof.
  intros Hmw Hmp Hu Hv.
  assert (Z.pos (digits2_pos mw) = 53) as Hdw by (apply digits2_unique; lia).
  assert (Z.pos (digits2_pos mp) = 53) as Hdp by (apply digits2_unique; lia).
  unfold SFdiv, SFdiv_core_binary, Zdigits2. rewrite Hdw, Hdp.
  replace (Z.min (fexp 53 1024 (53 + - u - (53 + - v))) (- u - - v))
    with (v - u - 53) by (unfold fexp, emin; lia).
  replace (- u - - v - (v - u - 53)) with 53 by lia.
  rewrite Z.shiftl_mul_pow2 by lia.
  pose proof (Z_div_mod (Z.pos mw * 2 ^ 53) (Z.pos mp) eq_refl) as Hdiv.
  destruct (Z.div_eucl (Z.pos mw * 2 ^ 53) (Z.pos mp)) as [q r].
  destruct Hdiv as [Hqr Hr].
  assert (2 ^ 52 <= q < 2 ^ 54) as Hq.
  { split.
    - destruct (Z.leb_spec (2 ^ 52) q); [done|].
      assert (Z.pos mp * q <= Z.pos mp * (2 ^ 52 - 1))
        by (apply Z.mul_le_mono_nonneg_l; lia). lia.
    - destruct (Z.ltb_spec q (2 ^ 54)); [done|].
      assert (Z.pos mp * 2 ^ 54 <= Z.pos mp * q)
        by (apply Z.mul_le_mono_nonneg_l; lia). lia. }
  destruct q as [|pq|pq]; try lia.
  rewrite new_location_loc_of by lia.
  pose proof (digits2_bounds pq) as Hdq.
  assert (53 <= Z.pos (digits2_pos pq) <= 54) as Hdq'.
  { split.
    - destruct (Z.leb_spec 53 (Z.pos (digits2_pos pq))); [done|].
      assert (2 ^ Z.pos (digits2_pos pq) <= 2 ^ 52) by (apply Z.pow_le_mono_r; lia). lia.
    - destruct (Z.leb_spec (Z.pos (digits2_pos pq)) 54); [done|].
      assert (2 ^ 54 <= 2 ^ (Z.pos (digits2_pos pq) - 1)) by (apply Z.pow_le_mono_r; lia). lia. }
  destruct (binary_round_aux_rel false pq (v - u - 53) r (Z.pos mp))
    as (m1 & e1 & Heq & Hm1 & He1 & _ & Hrel); try lia.
  exists m1, e1. cbn [xorb]. rewrite Heq. repeat split; lia.
Qed.

(** The product of a positive double with 100. *)
Lemma SFmul_hundred_rel (m1 : positive) (e1 : Z) :
  2 ^ 52 <= Z.pos m1 < 2 ^ 53 -> -500 <= e1 <= 500 ->
  exists m2 e2,
    SFmul 53 1024 (S754_finite false m1 e1) hundred = S754_finite false m2 e2
    /\ 2 ^ 52 <= Z.pos m2 < 2 ^ 53
    /\ e1 - 46 <= e2
    /\ 2 ^ 53 * Z.abs (Z.pos m2 * 2 ^ (e2 - (e1 - 46))
                       - Z.pos m1 * (100 * 2 ^ 46))
       <= Z.pos m1 * (100 * 2 ^ 46).
Proof.
  intros Hm1 He1. unfold SFmul, hundred. cbn [xorb].
  set (M := (m1 * 7036874417766400)%positive).
  assert (Z.pos M = Z.pos m1 * (100 * 2 ^ 46)) as HM by (subst M; lia).
  pose proof (digits2_bounds M) as Hd.
  assert (105 <= Z.pos (digits2_pos M) <= 106) as Hd'.
  { split.
    - destruct (Z.leb_spec 105 (Z.pos (digits2_pos M))); [done|].
      assert (2 ^ Z.pos (digits2_pos M) <= 2 ^ 104) by (apply Z.pow_le_mono_r; lia). lia.
    - destruct (Z.leb_spec (Z.pos (digits2_pos M)) 106); [done|].
      assert (2 ^ 106 <= 2 ^ (Z.pos (digits2_pos M) - 1)) by (apply Z.pow_le_mono_r; lia). lia. }
  change loc_Exact with (loc_of 0 1).
  destruct (binary_round_aux_rel false M (e1 + -46) 0 1)
    as (m2 & e2 & Heq & Hm2 & He2 & _ & Hrel); try lia.
  exists m2, e2. rewrite Heq. repeat split; try lia.
  replace (e1 - 46) with (e1 + -46) by lia. rewrite <- HM. lia.
Qed.

Lemma mul_cancel_lt (X H : Z) : 0 < H -> X * H < H -> X <= 0.
Proof. intros HH HX. nia. Qed.

Lemma mul_cancel_gt (X H : Z) : 0 < H -> - H < X * H -> 0 <= X.
Proof. intros HH HX. nia. Qed.

Lemma mul_cancel_le (X Y H : Z) : 0 < H -> X * H <= Y * H -> X <= Y.
Proof. intros HH HX. nia. Qed.

(** The double (W / P) * 100 for 0 < W <= P < 2^53: its mantissa [m2]
    and exponent [-h] satisfy
    [|m2 P - 100 W 2^h| <= 100 W 2^h (2^54 + 1) / 2^106]. *)
Lemma percent_double_close (W P : positive) :
  Z.pos W <= Z.pos P -> Z.pos P < 2 ^ 53 ->
  exists m2 h,
    SFmul 53 1024
      (SFdiv 53 1024 (binary_normalize 53 1024 (Z.pos W) 0 false)
                     (binary_normalize 53 1024 (Z.pos P) 0 false))
      hundred
    = S754_finite false m2 (- h)
    /\ 1 <= h
    /\ 2 ^ 52 <= Z.pos m2 < 2 ^ 53
    /\ 2 ^ 106 * Z.abs (Z.pos m2 * Z.pos P - 100 * (Z.pos W * 2 ^ h))
       <= 100 * (Z.pos W * 2 ^ h) * (2 ^ 54 + 1).
Proof.
  intros HWP HP.
  destruct (normalize_pos W) as (mw & u & -> & Hu & Hmw & Hmwb); [lia|].
  destruct (normalize_pos P) as (mp & v & -> & Hv & Hmp & Hmpb); [lia|].
  destruct (SFdiv_rel mw mp u v) as (m1 & e1 & -> & Hm1 & He1 & R1); try lia.
  destruct (SFmul_hundred_rel m1 e1) as (m2 & e2 & -> & Hm2 & He2 & R2); try lia.
  set (k1 := e1 - (v - u - 53)) in *.
  set (k2 := e2 - (e1 - 46)) in *.
  assert (0 <= k1) by lia. assert (0 <= k2) by lia.
  set (s := k1 + k2 + v).
  assert (0 < 2 ^ k1) by (apply Z.pow_pos_nonneg; lia).
  assert (0 < 2 ^ k2) by (apply Z.pow_pos_nonneg; lia).
  assert (0 < 2 ^ v) by (apply Z.pow_pos_nonneg; lia).
  assert (0 < 2 ^ u) by (apply Z.pow_pos_nonneg; lia).
  assert (0 < 2 ^ s) as Hs by (apply Z.pow_pos_nonneg; lia).
  set (G := Z.pos m2 * Z.pos P * 2 ^ s).
  set (Q := Z.pos W * 2 ^ (u + 99)).
  (* the bound after both roundings, at the common scale *)
  assert (2 ^ 106 * Z.abs (G - 100 * Q) <= 100 * Q * (2 ^ 54 + 1)) as K0.
  { set (A1 := Z.pos m1 * 2 ^ k1 * Z.pos mp) in *.
    set (T := Z.pos mw * 2 ^ 53) in *.
    assert (G = Z.pos m2 * 2 ^ k2 * (2 ^ k1 * Z.pos mp)) as HG.
    { subst G s. rewrite Hmp, !Z.pow_add_r by lia. ring. }
    assert (100 * Q = 100 * 2 ^ 46 * T) as HQ.
    { subst Q T. rewrite Hmw, Z.pow_add_r by lia.
      change (2 ^ 99) with (2 ^ 46 * 2 ^ 53). ring. }
    assert (2 ^ 53 * Z.abs (G - 100 * 2 ^ 46 * A1) <= 100 * 2 ^ 46 * A1) as R2'.
    { replace (G - 100 * 2 ^ 46 * A1)
        with ((Z.pos m2 * 2 ^ k2 - Z.pos m1 * (100 * 2 ^ 46)) * (2 ^ k1 * Z.pos mp))
        by (rewrite HG; subst A1; ring).
      rewrite Z.abs_mul, (Z.abs_eq (2 ^ k1 * Z.pos mp)) by lia.
      replace (100 * 2 ^ 46 * A1)
        with (Z.pos m1 * (100 * 2 ^ 46) * (2 ^ k1 * Z.pos mp)) by (subst A1; ring).
      rewrite Z.mul_assoc. apply Z.mul_le_mono_nonneg_r; lia. }
    rewrite HQ. lia. }
  assert (Q <= Z.pos P * 2 ^ (u + 99)) as HQP.
  { subst Q. apply Z.mul_le_mono_nonneg_r; [|lia]. apply Z.pow_nonneg. lia. }
  assert (0 < Q) as HQpos.
  { subst Q. apply Z.mul_pos_pos; [lia|]. apply Z.pow_pos_nonneg; lia. }
  (* the exponent is negative *)
  assert (s < u + 55) as Hsmall.
  { destruct (Z.ltb_spec s (u + 55)) as [|Hbig]; [done|]. exfalso.
    assert (2 ^ (u + 55) <= 2 ^ s) as Hpow by (apply Z.pow_le_mono_r; lia).
    assert (2 ^ 52 * Z.pos P * 2 ^ (u + 55) <= G) as HGbig.
    { subst G. transitivity (Z.pos m2 * Z.pos P * 2 ^ (u + 55)).
      - apply Z.mul_le_mono_nonneg_r; [apply Z.pow_nonneg; lia|].
        apply Z.mul_le_mono_nonneg_r; lia.
      - apply Z.mul_le_mono_nonneg_l; lia. }
    replace (2 ^ 52 * Z.pos P * 2 ^ (u + 55))
      with (2 ^ 8 * (Z.pos P * 2 ^ (u + 99))) in HGbig.
    2:{ replace (u + 99) with (u + 55 + 44) by lia.
        rewrite (Z.pow_add_r 2 (u + 55) 44) by lia.
        change (2 ^ 52) with (2 ^ 8 * 2 ^ 44). ring. }
    lia. }
  set (h := 99 + u - s).
  exists m2, h. split; [f_equal; lia|]. split; [lia|]. split; [lia|].
  assert (0 < 2 ^ h) by (apply Z.pow_pos_nonneg; lia).
  assert (Q = Z.pos W * 2 ^ h * 2 ^ s) as HQh.
  { subst Q. rewrite <- Z.mul_assoc, <- Z.pow_add_r by lia. do 2 f_equal. lia. }
  apply (mul_cancel_le _ _ (2 ^ s) Hs).
  replace (2 ^ 106 * Z.abs (Z.pos m2 * Z.pos P - 100 * (Z.pos W * 2 ^ h)) * 2 ^ s)
    with (2 ^ 106 * Z.abs (G - 100 * Q)).
  2:{ rewrite HQh. subst G.
      replace (Z.pos m2 * Z.pos P * 2 ^ s - 100 * (Z.pos W * 2 ^ h * 2 ^ s))
        with ((Z.pos m2 * Z.pos P - 100 * (Z.pos W * 2 ^ h)) * 2 ^ s) by ring.
      rewrite Z.abs_mul, (Z.abs_eq (2 ^ s)) by lia. ring. }
  replace (100 * (Z.pos W * 2 ^ h) * (2 ^ 54 + 1) * 2 ^ s)
    with (100 * Q * (2 ^ 54 + 1)) by (rewrite HQh; ring).
  exact K0.
Qed.

(** From the bound on the double to its hundredths: they are the
    exactly rounded ones, or one less when the exact value is a tie. *)
Lemma hundredths_close (m2 W P : positive) (h : Z) :
  1 <= h -> Z.pos W <= Z.pos P -> Z.pos P <= 10 ^ 11 ->
  2 ^ 106 * Z.abs (Z.pos m2 * Z.pos P - 100 * (Z.pos W * 2 ^ h))
    <= 100 * (Z.pos W * 2 ^ h) * (2 ^ 54 + 1) ->
  let n := (200 * Z.pos m2 + 2 ^ h) / 2 ^ (1 + h) in
  let Nx := (20000 * Z.pos W + Z.pos P) / (2 * Z.pos P) in
  n = Nx
  \/ (n + 1 = Nx /\ (20000 * Z.pos W + Z.pos P) mod (2 * Z.pos P) = 0).
Proof.
  intros Hh HWP HP K1 n Nx.
  assert (0 < 2 ^ h) as H2h by (apply Z.pow_pos_nonneg; lia).
  set (F := Z.pos m2 * Z.pos P - 100 * (Z.pos W * 2 ^ h)) in *.
  assert (Z.pos W * 2 ^ h <= 10 ^ 11 * 2 ^ h) as HW
    by (apply Z.mul_le_mono_nonneg_r; lia).
  assert (200 * Z.abs F < 2 ^ h) as HF by lia.
  (* the two floors *)
  pose proof (Z.div_mod (200 * Z.pos m2 + 2 ^ h) (2 ^ (1 + h))) as Hn.
  pose proof (Z.mod_pos_bound (200 * Z.pos m2 + 2 ^ h) (2 ^ (1 + h))) as Hnr.
  fold n in Hn. rewrite Z.pow_add_r in Hn, Hnr by lia. change (2 ^ 1) with 2 in Hn, Hnr.
  set (rn := (200 * Z.pos m2 + 2 ^ h) mod (2 * 2 ^ h)) in *.
  pose proof (Z.div_mod (20000 * Z.pos W + Z.pos P) (2 * Z.pos P)) as HN.
  pose proof (Z.mod_pos_bound (20000 * Z.pos W + Z.pos P) (2 * Z.pos P)) as HNr.
  fold Nx in HN.
  set (rho := (20000 * Z.pos W + Z.pos P) mod (2 * Z.pos P)) in *.
  specialize (Hn ltac:(lia)). specialize (Hnr ltac:(lia)).
  specialize (HN ltac:(lia)). specialize (HNr ltac:(lia)).
  (* both sides at the scale 2 P 2^h *)
  assert ((200 * Z.pos m2 + 2 ^ h) * Z.pos P
          = 200 * F + (20000 * Z.pos W + Z.pos P) * 2 ^ h) as Hscale
    by (subst F; ring).
  rewrite Hn, HN in Hscale.
  assert ((n * (2 * Z.pos P) - Nx * (2 * Z.pos P) - rho) * 2 ^ h
          = 200 * F - rn * Z.pos P) as Hdiff by (ring_simplify; lia).
  assert (0 <= rn * Z.pos P < 2 * 2 ^ h * Z.pos P) as Hrn.
  { split; [apply Z.mul_nonneg_nonneg; lia|].
    apply Z.mul_lt_mono_pos_r; lia. }
  assert (n * (2 * Z.pos P) - Nx * (2 * Z.pos P) - rho <= 0) as Hup.
  { apply (mul_cancel_lt _ (2 ^ h)); lia. }
  assert (0 <= (n + 1) * (2 * Z.pos P) - Nx * (2 * Z.pos P) - rho) as Hdown.
  { apply (mul_cancel_gt _ (2 ^ h)); [lia|].
    replace (((n + 1) * (2 * Z.pos P) - Nx * (2 * Z.pos P) - rho) * 2 ^ h)
      with (200 * F - rn * Z.pos P + 2 * 2 ^ h * Z.pos P) by (rewrite <- Hdiff; ring).
    lia. }
  assert (n <= Nx) by nia.
  destruct (Z.eq_dec rho 0) as [Hrho|Hrho].
  - assert (Nx <= n + 1) by nia. lia.
  - left. assert (Nx < n + 1) by nia. lia.
Qed.

(** *** Sums of integers below 2^53 are exact *)

Lemma shl_align_le (m : positive) (e e' : Z) :
  e' <= e ->
  exists mz, shl_align m e e' = (mz, e') /\ Z.pos mz = Z.pos m * 2 ^ (e - e').
Proof.
  intros He. unfold shl_align.
  destruct (e' - e) as [|k|k] eqn:Ek; try lia.
  - exists m. replace (e - e') with 0 by lia. replace e' with e by lia.
    split; [done|]. rewrite Z.pow_0_r. lia.
  - exists (shift_pos k m). split; [done|].
    rewrite shift_pos_correct, Zpower_pos_nat, Zpower_nat_Z, positive_nat_Z.
    replace (e - e') with (Z.pos k) by lia. ring.
Qed.

Lemma shl_align_ge (m : positive) (e e' : Z) :
  e <= e' -> shl_align m e e' = (m, e).
Proof.
  intros He. unfold shl_align. destruct (e' - e) as [|k|k] eqn:Ek; try done. lia.
Qed.

(** A mantissa that is a 53-bit number shifted to the left rounds to
    that number. *)
Lemma binary_round_aux_exact (X m : positive) (j ex : Z) :
  2 ^ 52 <= Z.pos m < 2 ^ 53 -> 0 <= j -> Z.pos X = Z.pos m * 2 ^ j ->
  -1074 <= ex + j -> ex + j + 1 <= 971 ->
  binary_round_aux 53 1024 false (Z.pos X) ex loc_Exact
  = S754_finite false m (ex + j).
Proof.
  intros Hm Hj HX Hlo Hhi.
  assert (0 < 2 ^ j) as HJ by (apply Z.pow_pos_nonneg; lia).
  assert (Z.pos (digits2_pos X) = 53 + j) as Hd.
  { apply digits2_unique. rewrite HX.
    replace (53 + j - 1) with (52 + j) by lia.
    rewrite !Z.pow_add_r by lia.
    split; [apply Z.mul_le_mono_nonneg_r | apply Z.mul_lt_mono_pos_r]; lia. }
  change loc_Exact with (loc_of 0 1).
  destruct (binary_round_aux_spec false X ex 0 1)
    as (m2 & e2 & -> & Hm2 & He2 & Habs); try lia.
  rewrite Hd in He2, Habs.
  replace (53 + j - 53) with j in He2, Habs by lia.
  rewrite !Z.mul_1_r, Z.add_0_r, HX in Habs.
  destruct (Z.eq_dec e2 (ex + j)) as [->|Hne].
  - replace (ex + j - ex) with j in Habs by lia.
    replace (Z.pos m2 * 2 ^ j - Z.pos m * 2 ^ j)
      with ((Z.pos m2 - Z.pos m) * 2 ^ j) in Habs by ring.
    rewrite Z.abs_mul, (Z.abs_eq (2 ^ j)) in Habs by lia.
    destruct (Z.eq_dec (Z.pos m2) (Z.pos m)) as [[= ->]|Hdiff]; [done|].
    exfalso.
    assert (1 * 2 ^ j <= Z.abs (Z.pos m2 - Z.pos m) * 2 ^ j)
      by (apply Z.mul_le_mono_nonneg_r; lia).
    lia.
  - exfalso. replace (e2 - ex) with (j + 1) in Habs by lia.
    rewrite Z.pow_add_r in Habs by lia. change (2 ^ 1) with 2 in Habs.
    replace (Z.pos m2 * (2 ^ j * 2) - Z.pos m * 2 ^ j)
      with ((2 * Z.pos m2 - Z.pos m) * 2 ^ j) in Habs by ring.
    rewrite Z.abs_mul, (Z.abs_eq (2 ^ j)) in Habs by lia.
    assert (1 * 2 ^ j <= Z.abs (2 * Z.pos m2 - Z.pos m) * 2 ^ j)
      by (apply Z.mul_le_mono_nonneg_r; lia).
    lia.
Qed.

(** The double of an integer below 2^53 does not depend on the scale
    at which the integer is given. *)
Lemma normalize_scaled (p : positive) (k : Z) :
  Z.pos p < 2 ^ 53 -> 0 <= k ->
  binary_normalize 53 1024 (Z.pos p * 2 ^ k) (- k) false
  = binary_normalize 53 1024 (Z.pos p) 0 false.
Proof.
  intros Hp Hk.
  destruct (normalize_pos p Hp) as (m & u & -> & Hu & Hm & Hmb).
  assert (0 < 2 ^ k) by (apply Z.pow_pos_nonneg; lia).
  assert (0 < 2 ^ u) by (apply Z.pow_pos_nonneg; lia).
  destruct (Z.pos p * 2 ^ k) as [|M|M] eqn:HM; try lia.
  assert (Z.pos (digits2_pos M) = 53 - u + k) as HdM.
  { apply digits2_unique. rewrite <- HM.
    split.
    - apply (Z.mul_le_mono_pos_r _ _ (2 ^ u)); [lia|].
      rewrite <- Z.pow_add_r by lia.
      replace (53 - u + k - 1 + u) with (52 + k) by lia.
      rewrite Z.pow_add_r by lia.
      replace (Z.pos p * 2 ^ k * 2 ^ u) with (Z.pos p * 2 ^ u * 2 ^ k) by ring.
      rewrite <- Hm. apply Z.mul_le_mono_nonneg_r; lia.
    - apply (Z.mul_lt_mono_pos_r (2 ^ u)); [lia|].
      rewrite <- Z.pow_add_r by lia.
      replace (53 - u + k + u) with (53 + k) by lia.
      rewrite Z.pow_add_r by lia.
      replace (Z.pos p * 2 ^ k * 2 ^ u) with (Z.pos p * 2 ^ u * 2 ^ k) by ring.
      rewrite <- Hm. apply Z.mul_lt_mono_pos_r; lia. }
  unfold binary_normalize, binary_round. rewrite HdM.
  replace (fexp 53 1024 (53 - u + k + - k)) with (- u)
    by (unfold fexp, emin; lia).
  destruct (Z.le_gt_cases k u) as [Hku|Hku].
  - destruct (shl_align_le M (- k) (- u)) as (mz & -> & Hmz); [lia|].
    rewrite (binary_round_aux_exact mz m 0 (- u)); try lia.
    + f_equal. lia.
    + rewrite Hmz, <- HM, Z.pow_0_r, Z.mul_1_r, Hm, <- Z.mul_assoc,
        <- Z.pow_add_r by lia.
      do 2 f_equal. lia.
  - rewrite shl_align_ge by lia.
    rewrite (binary_round_aux_exact M m (k - u) (- k)); try lia.
    + f_equal. lia.
    + rewrite <- HM, Hm, <- Z.mul_assoc, <- Z.pow_add_r by lia.
      do 2 f_equal. lia.
Qed.

(** Two integers whose sum is below 2^53 add without rounding. *)
Lemma add_integers (a b : N) :
  (Z.of_N a + Z.of_N b < 2 ^ 53) ->
  Number.add (Number.of_N a) (Number.of_N b) = Number.of_N (a + b).
Proof.
  intros Hsum.
  unfold Number.add, Number.of_N, Number.of_Z, Number.prec, Number.emax.
  destruct a as [|pa], b as [|pb].
  - reflexivity.
  - change (Z.of_N (0 + N.pos pb)) with (Z.pos pb). cbn [Z.of_N] in *.
    destruct (normalize_pos pb) as (mb & v & -> & _); [lia|]. reflexivity.
  - change (Z.of_N (N.pos pa + 0)) with (Z.pos pa). cbn [Z.of_N] in *.
    destruct (normalize_pos pa) as (ma & u & -> & _); [lia|]. reflexivity.
  - change (Z.of_N (N.pos pa + N.pos pb)) with (Z.pos (pa + pb)).
    cbn [Z.of_N] in *.
    destruct (normalize_pos pa) as (ma & u & -> & Hu & Hma & _); [lia|].
    destruct (normalize_pos pb) as (mb & v & -> & Hv & Hmb & _); [lia|].
    cbn [SFadd cond_Zopp].
    set (w := Z.max u v).
    replace (Z.min (- u) (- v)) with (- w) by (subst w; lia).
    destruct (shl_align_le ma (- u) (- w)) as (za & -> & Hza); [subst w; lia|].
    destruct (shl_align_le mb (- v) (- w)) as (zb & -> & Hzb); [subst w; lia|].
    cbn [fst].
    replace (Z.pos za + Z.pos zb) with (Z.pos (pa + pb) * 2 ^ w).
    + apply normalize_scaled; [lia | subst w; lia].
    + rewrite Hza, Hzb, Hma, Hmb, <- !Z.mul_assoc, <- !Z.pow_add_r
        by (subst w; lia).
      replace (u + (- u - - w)) with w by lia.
      replace (v + (- v - - w)) with w by lia.
      lia.
Qed.

(** [reduce] over integers whose sum stays below 2^53. *)
Lemma fold_add_integers (l : list N) (acc : N) :
  Z.of_N acc + Z.of_N (foldr N.add 0%N l) < 2 ^ 53 ->
  fold_left Number.add (Number.of_N <$> l) (Number.of_N acc)
  = Number.of_N (acc + foldr N.add 0%N l).
Proof.
  revert acc. induction l as [|n l IH]; intros acc Hsum.
  - cbn. by rewrite N.add_0_r.
  - cbn [fmap list_fmap fold_left foldr] in *.
    rewrite add_integers by lia. rewrite IH by lia. f_equal. lia.
Qed.

(** The integer that the double of an integer below 2^53 holds. *)
Lemma floor_of_N (n : N) :
  Z.of_N n < 2 ^ 53 -> Number.floor (Number.of_N n) = Some (Z.of_N n).
Proof.
  intros Hn. unfold Number.of_N, Number.of_Z, Number.prec, Number.emax.
  destruct n as [|p]; [reflexivity|]. cbn [Z.of_N] in *.
  destruct (normalize_pos p Hn) as (m & u & -> & Hu & Hm & _).
  cbn [Number.floor]. f_equal.
  assert (0 < 2 ^ u) by (apply Z.pow_pos_nonneg; lia).
  destruct (Z.leb_spec 0 (- u)).
  - replace u with 0 in * by lia. rewrite Z.pow_0_r in *. lia.
  - rewrite Z.opp_involutive, Hm. by rewrite Z.div_mul by lia.
Qed.

End Binary64.

(** ** The win-rate aggregator *)

Section Aggregator.

Implicit Types hero : HeroRecord.

(** The two [reduce] calls add up the eight brackets; below 2^53 no
    addition rounds. *)
Lemma sum_picks_total hero :
  (total_picks hero < 2 ^ 53)%N ->
  reduce_sum (picks_of hero) = Number.of_N (total_picks hero).
Proof.
  intros Hbound. unfold reduce_sum, picks_of.
  change (Number.of_Z 0) with (Number.of_N 0).
  rewrite (list_fmap_compose (pick hero) Number.of_N).
  rewrite fold_add_integers.
  - f_equal. unfold total_picks. cbn. lia.
  - unfold total_picks in Hbound. cbn. lia.
Qed.

Lemma sum_wins_total hero :
  (total_wins hero < 2 ^ 53)%N ->
  reduce_sum (wins_of hero) = Number.of_N (total_wins hero).
Proof.
  intros Hbound. unfold reduce_sum, wins_of.
  change (Number.of_Z 0) with (Number.of_N 0).
  rewrite (list_fmap_compose (win hero) Number.of_N).
  rewrite fold_add_integers.
  - f_equal. unfold total_wins. cbn. lia.
  - unfold total_wins in Hbound. cbn. lia.
Qed.

Lemma WinRate_totals hero :
  (total_picks hero < 2 ^ 53)%N ->
  (total_wins hero < 2 ^ 53)%N ->
  WinRate hero
  = Number.toFixed2 (winrate_double (total_wins hero) (total_picks hero)).
Proof.
  intros Hpicks Hwins. unfold WinRate. cbn zeta.
  by rewrite sum_picks_total, sum_wins_total.
Qed.

(** How far the double is from the exact quotient: for wins not above
    picks and at most 10^11 picks, the printed hundredths are those of
    the exactly rounded value, or one less when the exact value lies
    half-way between two hundredths. *)
Lemma WinRate_close hero :
  (0 < total_picks hero)%N ->
  (total_wins hero <= total_picks hero)%N ->
  (total_picks hero <= 10 ^ 11)%N ->
  exists n : N,
    WinRate hero = Number.point2 n
    /\ (n = rounded_hundredths (total_wins hero) (total_picks hero)
        \/ ((n + 1)%N = rounded_hundredths (total_wins hero) (total_picks hero)
            /\ ((20000 * total_wins hero + total_picks hero)
                  mod (2 * total_picks hero))%N = 0%N)).
Proof.
  intros Hpos HWP HP.
  rewrite WinRate_totals by lia.
  revert Hpos HWP HP.
  unfold winrate_double, Number.mul, Number.div, Number.of_N, Number.of_Z,
    Number.prec, Number.emax, rounded_hundredths.
  change (binary_normalize 53 1024 100 0 false) with hundred.
  destruct (total_picks hero) as [|P]; [lia|].
  destruct (total_wins hero) as [|W]; intros _ HWP HP.
  - destruct (normalize_pos P) as (mp & v & Heq & _); [lia|].
    cbn [Z.of_N]. rewrite Heq. exists 0%N. split; [reflexivity|].
    left. symmetry. apply N.div_small. lia.
  - cbn [Z.of_N].
    destruct (percent_double_close W P) as (m2 & h & -> & Hh & Hm2 & K1);
      [lia | lia |].
    exists (Number.hundredths m2 (- h)). split.
    { unfold Number.toFixed2, Number.at_least_1e21.
      replace (0 <=? - h) with false by (symmetry; apply Z.leb_gt; lia).
      rewrite Z.opp_involutive.
      assert (0 < 2 ^ h) as Hpow by (apply Z.pow_pos_nonneg; lia).
      assert (2 ^ 53 * 1 <= 10 ^ 21 * 2 ^ h) as Hbig
        by (apply Z.mul_le_mono_nonneg; lia).
      replace (10 ^ 21 * 2 ^ h <=? Z.pos m2) with false
        by (symmetry; apply Z.leb_gt; lia).
      reflexivity. }
    pose proof (hundredths_close m2 W P h Hh ltac:(lia) ltac:(lia) K1) as Hclose.
    cbn zeta in Hclose.
    assert (0 < 2 ^ h) by (apply Z.pow_pos_nonneg; lia).
    assert (0 <= (200 * Z.pos m2 + 2 ^ h) / 2 ^ (1 + h)) as Hnonneg.
    { apply Z.div_pos; [lia|]. apply Z.pow_pos_nonneg; lia. }
    assert (Z.of_N (Number.hundredths m2 (- h))
            = (200 * Z.pos m2 + 2 ^ h) / 2 ^ (1 + h)) as Hn.
    { unfold Number.hundredths.
      replace (0 <=? - h) with false by (symmetry; apply Z.leb_gt; lia).
      rewrite Z.opp_involutive. replace (1 - - h) with (1 + h) by lia.
      by rewrite Z2N.id. }
    assert (Z.of_N ((20000 * N.pos W + N.pos P) / (2 * N.pos P))
            = (20000 * Z.pos W + Z.pos P) / (2 * Z.pos P)) as HN.
    { rewrite N2Z.inj_div, N2Z.inj_add, !N2Z.inj_mul. reflexivity. }
    destruct Hclose as [Heq | [Heq Htie]]; [left | right; split].
    + apply N2Z.inj. by rewrite Hn, HN.
    + apply N2Z.inj. by rewrite N2Z.inj_add, Hn, HN.
    + apply N2Z.inj. rewrite N2Z.inj_mod, N2Z.inj_add, !N2Z.inj_mul. exact Htie.
Qed.

(** C4. The hero [unplayed] has no pick and no win in any bracket; the
    division is 0 / 0 and [WinRate] returns the text "NaN", with no
    signal beside it. *)
Theorem WinRate_no_picks_is_NaN :
  total_picks unplayed = 0%N
  /\ winrate_double (total_wins unplayed) (total_picks unplayed) = S754_nan
  /\ WinRate unplayed = "NaN".
Proof. repeat split. Qed.

(** C8, as the specification states it, fails for 23 wins in 160 picks:
    100 * 23 / 160 is 14.375 and rounds to 14.38, but the double
    (23 / 160) * 100 lies just below 14.375 and [WinRate] returns
    14.37. *)
Lemma WinRate_tie_rounds_down :
  total_picks seldom = 160%N /\ total_wins seldom = 23%N
  /\ exact_WinRate seldom = "14.38"
  /\ WinRate seldom = "14.37"
  /\ WinRate seldom <> exact_WinRate seldom.
Proof. repeat split. vm_compute. discriminate. Qed.

(** C8, amended. For every hero with positive total picks, and with
    picks and wins that each total less than 2^53, [WinRate] adds the
    pick counts and the win counts of the 8 brackets, without rounding,
    and returns the double-precision value of (wins / picks) * 100
    printed with two decimals. When the wins do not exceed the picks and
    the picks are at most 10^11, that text is 100 * wins / picks rounded
    to two decimals, except that a value exactly half-way between two
    hundredths may be printed as the lower one. For totals of 1000 picks
    and 530 wins the text is 53.00. *)
Theorem WinRate_double_rounding hero :
  (0 < total_picks hero)%N ->
  (total_picks hero < 2 ^ 53)%N ->
  (total_wins hero < 2 ^ 53)%N ->
  reduce_sum (picks_of hero) = Number.of_N (total_picks hero)
  /\ Number.floor (reduce_sum (picks_of hero))
     = Some (Z.of_N (total_picks hero))
  /\ reduce_sum (wins_of hero) = Number.of_N (total_wins hero)
  /\ Number.floor (reduce_sum (wins_of hero))
     = Some (Z.of_N (total_wins hero))
  /\ WinRate hero
     = Number.toFixed2
         (Number.mul
            (Number.div (Number.of_N (total_wins hero))
                        (Number.of_N (total_picks hero)))
            (Number.of_Z 100))
  /\ ((total_wins hero <= total_picks hero)%N ->
      (total_picks hero <= 10 ^ 11)%N ->
      (((20000 * total_wins hero + total_picks hero)
          mod (2 * total_picks hero))%N <> 0%N ->
       WinRate hero = exact_WinRate hero)
      /\ exists n : N,
           WinRate hero = Number.point2 n
           /\ (n = rounded_hundredths (total_wins hero) (total_picks hero)
               \/ (n + 1)%N
                  = rounded_hundredths (total_wins hero) (total_picks hero)))
  /\ (total_picks hero = 1000%N -> total_wins hero = 530%N ->
      WinRate hero = "53.00").
Proof.
  intros Hpos Hpicks Hwins.
  split; [by apply sum_picks_total|].
  split; [rewrite sum_picks_total by done; apply floor_of_N; lia|].
  split; [by apply sum_wins_total|].
  split; [rewrite sum_wins_total by done; apply floor_of_N; lia|].
  split; [by apply WinRate_totals|]. split.
  - intros Hle Hbound.
    destruct (WinRate_close hero Hpos Hle Hbound) as (n & Hn & Hclose).
    split.
    + intros Hnotie. rewrite Hn. by destruct Hclose as [-> | [_ Htie]].
    + exists n. split; [exact Hn|]. destruct Hclose as [Heq | [Heq _]]; auto.
  - intros Hp Hw. rewrite WinRate_totals, Hp, Hw by done. reflexivity.
Qed.

(** Anti-Mage, with 1000 picks and 530 wins. *)
Lemma WinRate_double_rounding_witness :
  (0 < total_picks antimage)%N
  /\ (total_picks antimage < 2 ^ 53)%N
  /\ (total_wins antimage < 2 ^ 53)%N
  /\ WinRate antimage = "53.00".
Proof.
  assert (0 < total_picks antimage)%N as Hpos by reflexivity.
  assert (total_picks antimage < 2 ^ 53)%N as Hpicks by reflexivity.
  assert (total_wins antimage < 2 ^ 53)%N as Hwins by reflexivity.
  split; [exact Hpos|]. split; [exact Hpicks|]. split; [exact Hwins|].
  destruct (WinRate_double_rounding antimage Hpos Hpicks Hwins)
    as (_ & _ & _ & _ & _ & _ & H).
  apply H; reflexivity.
Defined.

(** Past 2^53 the additions round: a bracket of 2^53 picks followed by
    seven brackets of one pick adds up to 2^53, and with 2^48 wins the
    quotient is the tie 3.125, printed as 3.13, where the exact totals
    give 3.12. *)
Lemma WinRate_sum_rounds :
  let hero := mkHero 202 "npc_dota_hero_crowd" "Crowd" "str"
                [2 ^ 53; 1; 1; 1; 1; 1; 1; 1]%N [2 ^ 48]%N in
  total_picks hero = (2 ^ 53 + 7)%N
  /\ reduce_sum (picks_of hero) = Number.of_N (2 ^ 53)
  /\ WinRate hero = "3.13"
  /\ Number.toFixed2 (winrate_double (total_wins hero) (total_picks hero))
     = "3.12".
Proof. vm_compute. repeat split. Qed.

(** From 10^21 on [toFixed] prints the exponent form: 10^20 wins in a
    single game. *)
Lemma WinRate_exponent_form :
  WinRate (mkHero 203 "npc_dota_hero_lone" "Lone" "str" [1]%N [10 ^ 20]%N)
  = "1e+22".
Proof. vm_compute. reflexivity. Qed.

End Aggregator.

(** ** Sorting by purchases *)

Section Sorting.

Implicit Types (entry : string * Z) (l : list (string * Z)).

Lemma sort_insert_perm {A} (cmp : A -> A -> Z) (a : A) (l : list A) :
  sort_insert cmp a l ≡ₚ a :: l.
Proof.
  induction l as [|b l IH]; simpl; [done|].
  destruct (cmp a b <=? 0); [done|].
  rewrite IH. apply Permutation_swap.
Qed.

Lemma array_sort_perm {A} (cmp : A -> A -> Z) (l : list A) :
  array_sort cmp l ≡ₚ l.
Proof.
  induction l as [|a l IH]; simpl; [done|].
  by rewrite sort_insert_perm, IH.
Qed.

Lemma sort_insert_descending entry l :
  StronglySorted descending l ->
  StronglySorted descending (sort_insert by_purchases entry l).
Proof.
  induction 1 as [|b l Hsorted IH Hall]; simpl.
  - repeat constructor.
  - unfold by_purchases at 1. destruct (Z.leb_spec (b.2 - entry.2) 0) as [Hle|Hgt].
    + constructor; [by constructor|]. constructor.
      * unfold descending. lia.
      * eapply Forall_impl; [exact Hall|]. unfold descending. intros x ?. lia.
    + constructor; [exact IH|].
      rewrite sort_insert_perm. constructor; [|exact Hall].
      unfold descending. lia.
Qed.

Lemma SortItems_descending l : StronglySorted descending (SortItems l).
Proof.
  unfold SortItems. induction l as [|entry l IH]; simpl.
  - constructor.
  - by apply sort_insert_descending.
Qed.

Lemma SortItems_perm l : SortItems l ≡ₚ l.
Proof. apply array_sort_perm. Qed.

(** Stability: an inserted entry passes only entries with a larger
    count, so entries of one count keep their order. *)
Lemma with_count_insert c entry l :
  with_count c (sort_insert by_purchases entry l) = with_count c (entry :: l).
Proof.
  unfold with_count. induction l as [|b l IH]; simpl; [done|].
  unfold by_purchases at 1. destruct (Z.leb_spec (b.2 - entry.2) 0) as [Hle|Hgt]; [done|].
  rewrite (filter_cons _ b), IH, !filter_cons.
  repeat case_decide; try done; lia.
Qed.

Lemma SortItems_stable c l : with_count c (SortItems l) = with_count c l.
Proof.
  unfold SortItems. induction l as [|entry l IH]; simpl; [done|].
  rewrite with_count_insert. unfold with_count in *.
  rewrite !filter_cons, IH. done.
Qed.

Lemma with_count_filter c (P : string * Z -> Prop) `{!forall x, Decision (P x)} l :
  with_count c (filter P l) = filter P (with_count c l).
Proof.
  unfold with_count. induction l as [|x l IH]; [done|].
  rewrite !filter_cons. repeat case_decide; rewrite ?filter_cons;
    repeat case_decide; try done; by rewrite IH.
Qed.

Lemma descending_filter (P : string * Z -> Prop) `{!forall x, Decision (P x)} l :
  StronglySorted descending l -> StronglySorted descending (filter P l).
Proof.
  induction 1 as [|a l Hsorted IH Hall]; [constructor|].
  rewrite filter_cons. case_decide; [|exact IH].
  constructor; [exact IH|].
  rewrite Forall_forall in *. intros x [_ Hin]%list_elem_of_filter. by apply Hall.
Qed.

End Sorting.

(** ** The item pipeline *)

Section Pipeline.

Context (env : Env).

Implicit Types (item : ItemRecord) (payload : PeriodItems)
  (objectList : list ItemRecord) (l : list (string * Z)).

Lemma interesting_present item :
  interesting item = true <-> kept_if_present item.
Proof.
  unfold interesting, kept_if_present, array_includes.
  destruct (item_id item) as [z|].
  - destruct (existsb (Z.eqb z) [1; 41; 609]) eqn:Hid.
    + split; [intros _; left | done]. exists z. split; [done|].
      apply existsb_exists in Hid as (z' & Hin & ->%Z.eqb_eq).
      by apply list_elem_of_In.
    + assert (z ∉ [1; 41; 609]) as Hnot.
      { intros Hin%list_elem_of_In. apply not_true_iff_false in Hid. apply Hid.
        apply existsb_exists. exists z. split; [done | apply Z.eqb_refl]. }
      destruct (components item) as [| |names]; simpl.
      * split; [done | intros [(i & [= <-] & ?) | [? ?]]; done].
      * split; [done | intros [(i & [= <-] & ?) | [? ?]]; done].
      * split; [intros _; right; by exists names | done].
  - destruct (components item) as [| |names]; simpl.
    + split; [done | intros [(i & ? & ?) | [? ?]]; done].
    + split; [done | intros [(i & ? & ?) | [? ?]]; done].
    + split; [intros _; right; by exists names | done].
Qed.

(** C7, as the specification states it, fails on an item outside the
    three fixed ids whose components list is present and empty: the
    filter keeps it. *)
Lemma filter_keeps_empty_components :
  plain ∈ filter (fun item => interesting item = true) [tango; plain]
  /\ ~ kept_if_nonempty plain.
Proof.
  split.
  - vm_compute. apply list_elem_of_here.
  - intros [(i & [= <-] & Hid) | (names & Hc & Hne)].
    + repeat (apply elem_of_cons in Hid as [Hid|Hid]; [discriminate|]).
      by apply elem_of_nil in Hid.
    + injection Hc as <-. done.
Qed.

(** C7, amended. For every resolved item sequence, the filter step
    keeps an item if and only if its id is one of 1, 41 and 609 or its
    components list is present (an empty list counts as present); every
    other item is dropped, and the kept ones stay in order. *)
Theorem filter_keeps_present_components objectList :
  (forall item,
     item ∈ filter (fun item => interesting item = true) objectList
     <-> item ∈ objectList /\ kept_if_present item)
  /\ filter (fun item => interesting item = true) objectList `sublist_of` objectList.
Proof.
  split.
  - intros item. rewrite list_elem_of_filter, interesting_present. tauto.
  - apply sublist_filter.
Qed.

(** [GetItems] keeps the entries whose id resolves, in order. *)
Lemma GetItems_omap l : GetItems env l = omap (fun entry => resolve env entry.1) l.
Proof.
  induction l as [|entry l IH]; simpl; [done|].
  destruct (resolve env entry.1); by rewrite IH.
Qed.

Lemma filtered_ranked_aligned l :
  Forall2 (resolved_to env)
    (filter (fun entry => passes env entry = true) l)
    (filter (fun item => interesting item = true) (GetItems env l)).
Proof.
  induction l as [|entry l IH]; simpl; [constructor|].
  rewrite filter_cons.
  destruct (decide (passes env entry = true)) as [Hpass|Hpass];
    unfold passes in Hpass;
    destruct (resolve env entry.1) as [item|] eqn:Hres; try done.
  - rewrite filter_cons, decide_True by done. by constructor.
  - rewrite filter_cons, decide_False by done. exact IH.
Qed.

(** Reading [objectList[0]], ..., [objectList[k-1]]: the first [k]
    items, then [undefined] past the end. *)
Lemma lookup_seq objectList (k : nat) :
  (objectList !!.) <$> seq 0 k
  = (Some <$> take k objectList) ++ replicate (k - length objectList) None.
Proof.
  revert k. induction objectList as [|x objectList IH]; intros k.
  - rewrite take_nil. simpl. rewrite Nat.sub_0_r.
    generalize 0%nat. induction k as [|k IHk]; intros start; simpl; [done|].
    f_equal. apply IHk.
  - destruct k as [|k]; [done|]. simpl.
    f_equal. rewrite <- fmap_S_seq, <- list_fmap_compose. apply IH.
Qed.

(** The loop appends [objectList[i]], [objectList[i+1]], ... until the
    result has five entries. *)
Lemma padding_loop_seq objectList (i : nat) (acc : list (option ItemRecord)) :
  padding_loop objectList i acc
  = acc ++ ((objectList !!.) <$> seq i (5 - length acc)).
Proof.
  funelim (padding_loop objectList i acc).
  - rewrite H. rewrite length_app. simpl.
    replace (5 - length filteredItems)%nat
      with (S (5 - (length filteredItems + 1)))%nat by lia.
    simpl. by rewrite <- app_assoc.
  - replace (5 - length filteredItems)%nat with 0%nat by lia.
    simpl. by rewrite app_nil_r.
Qed.

Lemma MostBought_unfold period stats :
  MostBought env period stats
  = (Some <$> filtered env (stats_get stats period))
    ++ ((pool env (stats_get stats period) !!.)
          <$> seq 0 (5 - length (filtered env (stats_get stats period)))).
Proof.
  unfold MostBought. rewrite padding_loop_seq, length_fmap. done.
Qed.

Lemma filtered_length payload :
  (length (filtered env payload) <= length (pool env payload))%nat.
Proof. apply length_filter. Qed.

Lemma MostBought_length period stats :
  length (MostBought env period stats)
  = Nat.max 5 (length (filtered env (stats_get stats period))).
Proof.
  rewrite MostBought_unfold, length_app, !length_fmap, length_seq. lia.
Qed.

End Pipeline.

(** ** The five entries of a phase *)

Section TopFive.

Context (env : Env).

Implicit Types (period : Period) (stats : Stats).

(** C1. For every phase payload whose unfiltered resolvable pool has at
    least 5 members, [MostBought] followed by the slice of
    [MostBoughtItems] returns exactly 5 item records: the first 5 of the
    filtered sequence, then pool items as padding. The filtered
    sequence is the image of the ranked pairs that pass the filter, and
    these are in descending purchase-count order, pairs of equal count
    in the iteration order of the payload. *)
Theorem MostBought_top5_ranked period stats :
  (5 <= length (pool env (stats_get stats period)))%nat ->
  slice5 (MostBought env period stats)
    = Some <$> (take 5 (filtered env (stats_get stats period))
                ++ take (5 - length (filtered env (stats_get stats period)))
                     (pool env (stats_get stats period)))
  /\ length (slice5 (MostBought env period stats)) = 5%nat
  /\ Forall2 (resolved_to env)
       (take 5 (ranked env (stats_get stats period)))
       (take 5 (filtered env (stats_get stats period)))
  /\ StronglySorted descending (ranked env (stats_get stats period))
  /\ forall c,
       with_count c (ranked env (stats_get stats period))
       = with_count c
           (filter (fun entry => passes env entry = true)
                   (stats_get stats period)).
Proof.
  intros Hpool. set (payload := stats_get stats period) in *.
  assert (slice5 (MostBought env period stats)
          = Some <$> (take 5 (filtered env payload)
                      ++ take (5 - length (filtered env payload))
                           (pool env payload))) as Hout.
  { unfold slice5. rewrite MostBought_unfold, lookup_seq. fold payload.
    replace (5 - length (filtered env payload) - length (pool env payload))%nat
      with 0%nat by lia.
    simpl. rewrite app_nil_r, <- fmap_app, <- fmap_take. f_equal.
    destruct (decide (5 <= length (filtered env payload))%nat) as [Hge|Hlt].
    - replace (5 - length (filtered env payload))%nat with 0%nat by lia.
      rewrite !take_0, !app_nil_r. done.
    - rewrite (take_ge (filtered env payload)) by lia.
      apply take_ge. rewrite length_app, length_take. lia. }
  split; [exact Hout|]. split.
  { rewrite Hout, length_fmap, length_app, !length_take.
    pose proof (filtered_length env payload). lia. }
  split.
  { apply Forall2_take. unfold ranked, filtered, pool.
    apply filtered_ranked_aligned. }
  split.
  { unfold ranked. apply descending_filter, SortItems_descending. }
  intros c. unfold ranked.
  rewrite !with_count_filter, SortItems_stable. done.
Qed.



(** C10. For every phase payload whose unfiltered resolvable pool has
    fewer than 5 members, the empty pool included, [MostBought] returns
    (the loop ends) a list of at least 5 entries, the slice has exactly
    5, and every entry appended from a position past the end of the
    pool is [undefined]; with an empty pool all five are. *)
Theorem MostBought_short_pool_pads_undefined period stats :
  (length (pool env (stats_get stats period)) < 5)%nat ->
  (5 <= length (MostBought env period stats))%nat
  /\ length (slice5 (MostBought env period stats)) = 5%nat
  /\ (forall i : nat,
        (length (pool env (stats_get stats period)) <= i)%nat ->
        (i < 5 - length (filtered env (stats_get stats period)))%nat ->
        MostBought env period stats
          !! (length (filtered env (stats_get stats period)) + i)%nat
        = Some None)
  /\ (pool env (stats_get stats period) = [] ->
      slice5 (MostBought env period stats) = replicate 5 None).
Proof.
  intros Hpool. set (payload := stats_get stats period) in *.
  pose proof (filtered_length env payload) as Hle.
  assert (length (MostBought env period stats) = 5%nat) as Hlen.
  { rewrite MostBought_length. fold payload. lia. }
  split; [lia|]. split.
  { unfold slice5. rewrite length_take. lia. }
  split.
  - intros i Hi Hlt. rewrite MostBought_unfold. fold payload.
    rewrite lookup_app_r by (rewrite length_fmap; lia).
    rewrite length_fmap, Nat.add_comm, Nat.add_sub.
    rewrite list_lookup_fmap, lookup_seq_lt by done. simpl.
    f_equal. by apply lookup_ge_None_2.
  - intros Hempty. unfold slice5. rewrite MostBought_unfold. fold payload.
    unfold filtered. rewrite Hempty. reflexivity.
Qed.

End TopFive.

(** The early game of the example: five of six ids resolve, two items
    pass the filter and three pad. *)
Lemma MostBought_top5_ranked_witness :
  (5 <= length (pool example_env (stats_get example_stats early_game_items)))%nat
  /\ slice5 (MostBought example_env early_game_items example_stats)
     = [Some power_treads; Some bfury; Some tango; Some tpscroll; Some branches].
Proof.
  assert (5 <= length (pool example_env
                         (stats_get example_stats early_game_items)))%nat
    as Hpool by (vm_compute; lia).
  split; [exact Hpool|].
  destruct (MostBought_top5_ranked example_env early_game_items example_stats Hpool)
    as [-> _].
  reflexivity.
Defined.


(** The late game of the example: a pool of one item. *)
Lemma MostBought_short_pool_pads_undefined_witness :
  (length (pool example_env (stats_get example_stats late_game_items)) < 5)%nat
  /\ MostBought example_env late_game_items example_stats !! 1%nat = Some None.
Proof.
  assert (length (pool example_env
                    (stats_get example_stats late_game_items)) < 5)%nat
    as Hpool by (vm_compute; lia).
  split; [exact Hpool|].
  destruct (MostBought_short_pool_pads_undefined example_env
              late_game_items example_stats
              Hpool) as (_ & _ & Hundef & _).
  apply (Hundef 1%nat); vm_compute; lia.
Defined.

(** ** The buttons *)

Section Buttons.

(** C3. With the roster of three heroes and [Math.random()] returning
    0.75, [RandomIntFromInterval(0, HERO_STATS.length)] is 3, the length
    of the roster; [HERO_STATS[3]] is [undefined] and [RandomHero] ends
    in a TypeError. *)
Theorem RandomHero_index_past_end :
  is_random three_quarters = true
  /\ RandomIntFromInterval three_quarters 0
       (Z.of_nat (length (HERO_STATS example_env))) = Some 3
  /\ array_get (HERO_STATS example_env) (Some 3) = None
  /\ (RandomHero example_env three_quarters example_page).2 = Throw TypeError.
Proof. repeat split. Qed.

(** C9. For every search input that is empty after lower-casing and
    trimming, [SearchHero] does what [RandomHero] does: from the same
    page and with the same random number both end with the same page
    and the same completion. *)
Theorem SearchHero_empty_is_RandomHero (env : Env) (random : spec_float)
    (page : Page) :
  trim (toLowerCase (hero_search page)) = "" ->
  SearchHero env random page = RandomHero env random page.
Proof. intros Hempty. unfold SearchHero. by rewrite Hempty. Qed.

(** A search field that holds two blanks. *)
Lemma SearchHero_empty_is_RandomHero_witness :
  trim (toLowerCase (hero_search example_page)) = ""
  /\ SearchHero example_env (S754_zero false) example_page
     = RandomHero example_env (S754_zero false) example_page.
Proof.
  assert (trim (toLowerCase (hero_search example_page)) = "") as Hempty
    by reflexivity.
  split; [exact Hempty|].
  exact (SearchHero_empty_is_RandomHero example_env (S754_zero false)
           example_page Hempty).
Defined.

End Buttons.

(** ** More about the resolver *)

Section ResolverMore.

Implicit Types (roster : list HeroRecord) (query : string) (hero : HeroRecord).

Lemma append_empty_r (s : string) : s +:+ "" = s.
Proof.
  induction s as [|c s IH]; [done|].
  change (String c (s +:+ "") = String c s). by rewrite IH.
Qed.

Lemma includes_empty (s : string) : includes s "" = true.
Proof. apply includes_spec. by exists "", s. Qed.

Lemma includes_self (s : string) : includes s s = true.
Proof. apply includes_spec. exists "", "". simpl. by rewrite append_empty_r. Qed.

Lemma GetHero_found roster query hero :
  GetHero roster query = Some hero ->
  hero ∈ roster
  /\ (includes (toLowerCase (localized_name hero)) query
      || includes (short_name hero) query) = true.
Proof.
  induction roster as [|h roster IH]; [done|]. cbn [GetHero].
  destruct (_ && _).
  - intros [Hin ?]%IH. split; [by right | done].
  - destruct (includes (toLowerCase (localized_name h)) query
              || includes (short_name h) query) eqn:Htest.
    + intros [= <-]. split; [left | done].
    + intros [Hin ?]%IH. split; [by right | done].
Qed.

(** X1. For every roster and every query, a hero returned by [GetHero]
    is an entry of the roster that passes the substring test of the
    loop, and for the query "io" its lower-cased localized name is
    "io". *)
Theorem GetHero_returns_matching_entry roster query hero :
  GetHero roster query = Some hero ->
  hero ∈ roster
  /\ (includes (toLowerCase (localized_name hero)) query
      || includes (short_name hero) query) = true
  /\ (query = "io" -> toLowerCase (localized_name hero) = "io").
Proof.
  intros Hget. destruct (GetHero_found _ _ _ Hget) as [Hin Htest].
  repeat split; try done.
  intros ->. by apply GetHero_io_elem in Hget as [_ ?].
Qed.

Lemma GetHero_returns_matching_entry_witness :
  GetHero [lion; wisp; antimage] "mage" = Some antimage
  /\ antimage ∈ [lion; wisp; antimage].
Proof.
  assert (GetHero [lion; wisp; antimage] "mage" = Some antimage) as Hget
    by reflexivity.
  split; [exact Hget|].
  apply (GetHero_returns_matching_entry _ _ _ Hget).
Defined.

Lemma GetHero_io_cons roster hero :
  GetHero (hero :: roster) "io"
  = if String.eqb (toLowerCase (localized_name hero)) "io"
    then Some hero else GetHero roster "io".
Proof.
  cbn [GetHero]. change (String.eqb "io" "io") with true. cbn [andb].
  destruct (String.eqb_spec (toLowerCase (localized_name hero)) "io") as [Hio|Hio];
    cbn [negb]; [|done].
  rewrite Hio. reflexivity.
Qed.

(** X2. For the query "io" the substring rule is switched off:
    [GetHero] returns a hero exactly when it is the first roster entry
    whose lower-cased localized name is "io", and [null] exactly when
    the roster has no such entry. *)
Theorem GetHero_io_first_exact roster :
  (forall hero,
     GetHero roster "io" = Some hero
     <-> exists before after,
           roster = before ++ hero :: after
           /\ toLowerCase (localized_name hero) = "io"
           /\ Forall (fun h => toLowerCase (localized_name h) <> "io") before)
  /\ (GetHero roster "io" = None
      <-> Forall (fun h => toLowerCase (localized_name h) <> "io") roster).
Proof.
  split.
  - intros hero. induction roster as [|h roster IH].
    + split; [done|]. intros ([|? ?] & after & H & _); discriminate.
    + rewrite GetHero_io_cons.
      destruct (String.eqb_spec (toLowerCase (localized_name h)) "io") as [Hio|Hio].
      * split.
        -- intros [= <-]. exists [], roster. by repeat split.
        -- intros ([|h' before] & after & Heq & Hm & Hnone).
           ++ by injection Heq as ->.
           ++ injection Heq as -> _. by apply Forall_cons in Hnone as [Hno _].
      * rewrite IH. split.
        -- intros (before & after & -> & Hm & Hnone).
           exists (h :: before), after. repeat split; [done|]. by constructor.
        -- intros ([|h' before] & after & Heq & Hm & Hnone).
           ++ injection Heq as -> _. done.
           ++ injection Heq as -> ->. apply Forall_cons in Hnone as [_ Hnone].
              by exists before, after.
  - induction roster as [|h roster IH]; [split; [constructor | done]|].
    rewrite GetHero_io_cons, Forall_cons.
    destruct (String.eqb_spec (toLowerCase (localized_name h)) "io") as [Hio|Hio].
    + split; [done | by intros [? _]].
    + rewrite IH. split; [by intros ? | by intros [_ ?]].
Qed.

Lemma short_name_short hero :
  (String.length (name hero) <= 14)%nat -> short_name hero = "".
Proof.
  intros Hlen. unfold short_name. rewrite slice_to_end.
  pose proof (skip_chars_length 14 (name hero)) as H.
  destruct (skip_chars 14 (name hero)); [done|]. simpl in H. lia.
Qed.

(** X3. Every hero passes the test for the empty query, so [GetHero]
    answers it with the first roster entry; this is the query that
    [RandomHero] derives from a hero whose internal name has at most 14
    characters. *)
Theorem GetHero_short_name_first roster first target :
  (String.length (name target) <= 14)%nat ->
  short_name target = ""
  /\ GetHero (first :: roster) (short_name target) = Some first.
Proof.
  intros Hlen. rewrite short_name_short by done. split; [done|].
  cbn [GetHero]. change (String.eqb "" "io") with false. cbn [andb].
  by rewrite includes_empty.
Qed.

Lemma GetHero_short_name_first_witness :
  (String.length (name (mkHero 7 "npc_dota_hero" "Nameless" "str" [] [])) <= 14)%nat
  /\ GetHero [lion; wisp]
       (short_name (mkHero 7 "npc_dota_hero" "Nameless" "str" [] []))
     = Some lion.
Proof.
  assert (String.length (name (mkHero 7 "npc_dota_hero" "Nameless" "str" [] []))
          <= 14)%nat as Hlen by (vm_compute; lia).
  split; [exact Hlen|].
  apply (GetHero_short_name_first [wisp] lion _ Hlen).
Defined.

Lemma GetHero_own_short_name_found roster target :
  target ∈ roster ->
  short_name target <> "io" \/ toLowerCase (localized_name target) = "io" ->
  exists hero before after,
    GetHero roster (short_name target) = Some hero
    /\ roster = before ++ hero :: after
    /\ (hero = target \/ target ∈ after).
Proof.
  intros Hin Hio. induction roster as [|h roster IH]; [by apply elem_of_nil in Hin|].
  cbn [GetHero].
  destruct (String.eqb (short_name target) "io"
            && negb (String.eqb (toLowerCase (localized_name h)) "io")) eqn:Hskip.
  - apply elem_of_cons in Hin as [->|Hin].
    + exfalso. apply andb_prop in Hskip as [Hq Hn].
      apply String.eqb_eq in Hq. apply negb_true_iff, String.eqb_neq in Hn.
      by destruct Hio.
    + destruct (IH Hin) as (hero & before & after & Hget & -> & Hpos).
      by exists hero, (h :: before), after.
  - destruct (includes (toLowerCase (localized_name h)) (short_name target)
              || includes (short_name h) (short_name target)) eqn:Htest.
    + exists h, [], roster. repeat split.
      apply elem_of_cons in Hin as [->|Hin]; [by left | by right].
    + apply elem_of_cons in Hin as [->|Hin].
      * rewrite includes_self, orb_true_r in Htest. done.
      * destruct (IH Hin) as (hero & before & after & Hget & -> & Hpos).
        by exists hero, (h :: before), after.
Qed.

(** X4. A hero of the roster is found again under its own short name,
    unless that name is "io" and the localized name is not: [GetHero]
    then returns the hero itself or an entry before it. *)
Theorem GetHero_own_short_name roster target :
  target ∈ roster ->
  short_name target <> "io" \/ toLowerCase (localized_name target) = "io" ->
  exists hero before after,
    GetHero roster (short_name target) = Some hero
    /\ roster = before ++ hero :: after
    /\ (hero = target \/ target ∈ after).
Proof. apply GetHero_own_short_name_found. Qed.

Lemma GetHero_own_short_name_witness :
  antimage ∈ [lion; wisp; antimage]
  /\ exists hero, GetHero [lion; wisp; antimage] (short_name antimage) = Some hero.
Proof.
  assert (antimage ∈ [lion; wisp; antimage]) as Hin
    by (apply list_elem_of_further, list_elem_of_further, list_elem_of_here).
  assert (short_name antimage <> "io"
          \/ toLowerCase (localized_name antimage) = "io") as Hio
    by (left; discriminate).
  split; [exact Hin|].
  destruct (GetHero_own_short_name _ _ Hin Hio) as (hero & _ & _ & Hget & _).
  by exists hero.
Defined.

End ResolverMore.

(** ** The query that the search box hands on *)

Section Normalised.

Lemma lower_char_idem (c : ascii) : lower_char (lower_char c) = lower_char c.
Proof. destruct c as [[] [] [] [] [] [] [] []]; reflexivity. Qed.

Lemma toLowerCase_idem (s : string) : toLowerCase (toLowerCase s) = toLowerCase s.
Proof.
  induction s as [|c s IH]; [done|]. cbn [toLowerCase].
  by rewrite lower_char_idem, IH.
Qed.

Lemma trimStart_lower (s : string) :
  toLowerCase s = s -> toLowerCase (trimStart s) = trimStart s.
Proof.
  induction s as [|c s IH]; [done|]. intros Hs. cbn [trimStart].
  destruct (is_space c); [|done].
  apply IH. cbn [toLowerCase] in Hs. congruence.
Qed.

Lemma trimEnd_lower (s : string) :
  toLowerCase s = s -> toLowerCase (trimEnd s) = trimEnd s.
Proof.
  induction s as [|c s IH]; [done|]. intros Hs. cbn [toLowerCase] in Hs.
  injection Hs as Hc Hs. specialize (IH Hs). cbn [trimEnd].
  destruct (trimEnd s) as [|c' t].
  - destruct (is_space c); [done|]. cbn [toLowerCase]. by rewrite Hc.
  - cbn [toLowerCase] in *. by rewrite Hc, IH.
Qed.

Lemma trimEnd_idem (s : string) : trimEnd (trimEnd s) = trimEnd s.
Proof.
  induction s as [|c s IH]; [done|]. cbn [trimEnd].
  destruct (trimEnd s) as [|c' t] eqn:Ht.
  - destruct (is_space c) eqn:Hc; [done|]. cbn [trimEnd]. by rewrite Hc.
  - cbn [trimEnd]. cbn [trimEnd] in IH. by rewrite IH.
Qed.

(** Trimming the end keeps a first character that is no space. *)
Lemma trimEnd_head (c : ascii) (s : string) :
  is_space c = false -> exists t, trimEnd (String c s) = String c t.
Proof.
  intros Hc. cbn [trimEnd]. destruct (trimEnd s) as [|c' t].
  - rewrite Hc. by exists "".
  - by exists (String c' t).
Qed.

Lemma trimStart_head (s : string) :
  trimStart s = ""
  \/ exists c t, trimStart s = String c t /\ is_space c = false.
Proof.
  induction s as [|c s IH]; [by left|]. cbn [trimStart].
  destruct (is_space c) eqn:Hc; [exact IH|]. right. by exists c, s.
Qed.

Lemma trim_idem (s : string) : trim (trim s) = trim s.
Proof.
  unfold trim. destruct (trimStart_head s) as [-> | (c & t & -> & Hc)]; [done|].
  destruct (trimEnd_head c t Hc) as [t' Heq]. rewrite Heq.
  cbn [trimStart]. rewrite Hc, <- Heq. apply trimEnd_idem.
Qed.

(** X5. Whatever the search field holds, the query that [SearchHero]
    computes from it is lower-cased and trimmed: lower-casing or
    trimming it again changes nothing. When it is not empty it is the
    query that [UpdatePage] receives. *)
Theorem SearchHero_query_normalised (env : Env) (random : spec_float)
    (page : Page) :
  toLowerCase (trim (toLowerCase (hero_search page)))
    = trim (toLowerCase (hero_search page))
  /\ trim (trim (toLowerCase (hero_search page)))
     = trim (toLowerCase (hero_search page))
  /\ (trim (toLowerCase (hero_search page)) <> "" ->
      SearchHero env random page
      = UpdatePage env (trim (toLowerCase (hero_search page))) page).
Proof.
  repeat split.
  - unfold trim. apply trimEnd_lower, trimStart_lower, toLowerCase_idem.
  - apply trim_idem.
  - intros Hne. unfold SearchHero.
    by destruct (String.eqb_spec (trim (toLowerCase (hero_search page))) "").
Qed.

End Normalised.

(** ** More about the item pipeline *)

Section PipelineMore.

Context (env : Env).

Implicit Types (payload : PeriodItems) (l : list (string * Z))
  (period : Period) (stats : Stats).

(** X6. [SortItems] returns the entries of the payload, each as often
    as it occurs there, in descending order of purchases; entries with
    the same number of purchases keep the order they have in the
    payload. *)
Theorem SortItems_sorted_stable payload :
  SortItems payload ≡ₚ payload
  /\ StronglySorted descending (SortItems payload)
  /\ forall c, with_count c (SortItems payload) = with_count c payload.
Proof.
  split; [apply SortItems_perm|]. split; [apply SortItems_descending|].
  intros c. apply SortItems_stable.
Qed.

Lemma in_object_prototype (key : string) :
  existsb (String.eqb key) object_prototype = true <-> key ∈ object_prototype.
Proof.
  rewrite existsb_exists. split.
  - intros (k & Hin & ->%String.eqb_eq). by apply list_elem_of_In.
  - intros Hin. exists key. split; [by apply list_elem_of_In|].
    apply String.eqb_refl.
Qed.

(** The text of an inherited member is no name of a member. *)
Lemma member_text_not_inherited (member : string) :
  member ∈ object_prototype ->
  existsb (String.eqb (member_text member)) object_prototype = false.
Proof.
  intros Hin.
  repeat (apply elem_of_cons in Hin as [->|Hin]; [reflexivity|]).
  by apply elem_of_nil in Hin.
Qed.

Lemma resolve_provenance (iid : string) item :
  resolve env iid = Some item ->
  (exists name, ITEM_CONSTANTS env !! name = Some item)
  \/ item = inherited_member.
Proof.
  unfold resolve. cbn zeta.
  set (key := name_key (object_get (ITEM_IDS env) iid)).
  unfold object_get at 1.
  destruct (ITEM_CONSTANTS env !! key) as [own|] eqn:Hown.
  - intros [= <-]. left. by exists key.
  - destruct (existsb _ _); [|done]. intros [= <-]. by right.
Qed.

(** X7. What [GetItems] pushes is an entry that [ITEM_CONSTANTS] has of
    its own, or a member inherited from [Object.prototype], and there
    are never more of them than ids. An id that [ITEM_IDS] does not have
    and that names no inherited member is looked up under the name
    "undefined". A name that [ITEM_CONSTANTS] does not have of its own
    is dropped, unless it names an inherited member: then that member is
    pushed, which the filter never keeps and whose picture has the
    address "https://cdn.dota2.com/undefined". An id that [ITEM_IDS]
    does not have and that names an inherited member is looked up under
    the text of that member. *)
Theorem GetItems_lookup_chain l :
  (forall item,
     item ∈ GetItems env l ->
     (exists name, ITEM_CONSTANTS env !! name = Some item)
     \/ item = inherited_member)
  /\ (length (GetItems env l) <= length l)%nat
  /\ (forall iid count,
        ITEM_IDS env !! iid = None -> iid ∉ object_prototype ->
        GetItems env [(iid, count)]
        = match ITEM_CONSTANTS env !! "undefined" with
          | Some item => [item]
          | None => []
          end)
  /\ (forall iid count name,
        ITEM_IDS env !! iid = Some name ->
        GetItems env [(iid, count)]
        = match ITEM_CONSTANTS env !! name with
          | Some item => [item]
          | None => if bool_decide (name ∈ object_prototype)
                    then [inherited_member] else []
          end)
  /\ (forall iid count,
        ITEM_IDS env !! iid = None -> iid ∈ object_prototype ->
        GetItems env [(iid, count)]
        = match ITEM_CONSTANTS env !! member_text iid with
          | Some item => [item]
          | None => []
          end)
  /\ interesting inherited_member = false
  /\ item_src inherited_member = "https://cdn.dota2.com/undefined".
Proof.
  split; [|split; [|split; [|split; [|split; [|split]]]]].
  - intros item. rewrite GetItems_omap, list_elem_of_omap.
    intros (entry & _ & Hres). by apply (resolve_provenance entry.1).
  - induction l as [|entry l IH]; [done|]. cbn [GetItems].
    destruct (resolve env entry.1); simpl; lia.
  - intros iid count Hid Hnot. cbn [GetItems]. unfold resolve. cbn [fst].
    unfold object_get at 2. rewrite Hid.
    replace (existsb (String.eqb iid) object_prototype) with false.
    2:{ symmetry. apply not_true_iff_false. by rewrite in_object_prototype. }
    cbn [name_key]. unfold object_get.
    by destruct (ITEM_CONSTANTS env !! "undefined").
  - intros iid count name Hid. cbn [GetItems]. unfold resolve. cbn [fst].
    unfold object_get at 2. rewrite Hid. cbn [name_key]. unfold object_get.
    destruct (ITEM_CONSTANTS env !! name); [done|].
    destruct (existsb (String.eqb name) object_prototype) eqn:Hin.
    + apply in_object_prototype in Hin. by rewrite bool_decide_eq_true_2.
    + apply not_true_iff_false in Hin. rewrite in_object_prototype in Hin.
      by rewrite bool_decide_eq_false_2.
  - intros iid count Hid Hin. cbn [GetItems]. unfold resolve. cbn [fst].
    unfold object_get at 2. rewrite Hid.
    rewrite (proj2 (in_object_prototype iid) Hin). cbn [name_key].
    unfold object_get. rewrite member_text_not_inherited by done.
    by destruct (ITEM_CONSTANTS env !! member_text iid).
  - reflexivity.
  - reflexivity.
Qed.

(** The tables [ITEM_IDS = {5: "constructor"}] and [ITEM_CONSTANTS = {}]:
    the id 5 resolves to the function [Object], which is pushed. *)
Lemma GetItems_inherited_example :
  GetItems {| HERO_STATS := []; HERO_CONSTANTS := ∅;
              ITEM_IDS := {["5" := "constructor"]}; ITEM_CONSTANTS := ∅;
              ItemPopularity := fun _ => PhaseMissing |} [("5", 10)]
  = [inherited_member].
Proof. vm_compute. reflexivity. Qed.

(** The entries of a phase: the filtered items, the pool items that
    pad, and [undefined] for what is still missing. *)
Lemma MostBought_three_parts period stats :
  MostBought env period stats
  = (Some <$> filtered env (stats_get stats period))
    ++ (Some <$> take (5 - length (filtered env (stats_get stats period)))
                   (pool env (stats_get stats period)))
    ++ replicate (5 - length (filtered env (stats_get stats period))
                    - length (pool env (stats_get stats period))) None.
Proof. by rewrite MostBought_unfold, lookup_seq. Qed.

(** X8. When the answer to the popularity request holds the three
    phase objects, [MostBoughtItems] returns, and what it returns are
    three lists of exactly five entries each, whatever the payloads
    hold. It ends with the error of the request exactly when the request
    fails, and with a TypeError exactly when the answer lacks a phase
    object. *)
Theorem MostBoughtItems_five_each (heroId : Z) :
  (forall items,
     MostBoughtItems env heroId = Return items ->
     length (early_game items) = 5%nat
     /\ length (mid_game items) = 5%nat
     /\ length (late_game items) = 5%nat)
  /\ (forall stats,
        ItemPopularity env heroId = Popularity stats ->
        exists items, MostBoughtItems env heroId = Return items)
  /\ (MostBoughtItems env heroId = Throw FetchError
      <-> ItemPopularity env heroId = RequestFailed)
  /\ (MostBoughtItems env heroId = Throw TypeError
      <-> ItemPopularity env heroId = PhaseMissing).
Proof.
  unfold MostBoughtItems. destruct (ItemPopularity env heroId) as [| |stats].
  - by repeat split.
  - by repeat split.
  - split; [|split; [|by split]].
    + intros items [= <-]. cbn [early_game mid_game late_game].
      unfold slice5. rewrite !length_take, !MostBought_length. lia.
    + intros ? _. by eexists.
Qed.

(** X9. An entry of the five is [undefined] exactly when the items that
    pass the filter and the items of the pool together are fewer than
    five. *)
Theorem MostBought_undefined_iff period stats :
  None ∈ slice5 (MostBought env period stats)
  <-> (length (filtered env (stats_get stats period))
       + length (pool env (stats_get stats period)) < 5)%nat.
Proof.
  unfold slice5. rewrite MostBought_three_parts.
  set (F := filtered env (stats_get stats period)).
  set (P := pool env (stats_get stats period)).
  destruct (decide (5 <= length F)%nat) as [Hge|Hlt].
  - replace (5 - length F)%nat with 0%nat by lia. rewrite take_0. simpl.
    rewrite app_nil_r, <- fmap_take, list_elem_of_fmap. split; [|lia].
    by intros (? & ? & ?).
  - rewrite take_ge.
    2:{ rewrite !length_app, !length_fmap, length_take, length_replicate. lia. }
    rewrite !elem_of_app, !list_elem_of_fmap, elem_of_replicate. split.
    + intros [(? & ? & ?) | [(? & ? & ?) | [_ Hn]]]; try done. lia.
    + intros Hsum. right. right. split; [done|]. lia.
Qed.

End PipelineMore.

(** ** Writing the page *)

Section PageWrites.

Implicit Types (page : Page) (period : Period) (row : list string)
  (items : list (option ItemRecord)) (its : list ItemRecord).

Lemma get_row_set_row period row page :
  get_row period (set_row period row page) = row.
Proof. by destruct period. Qed.

Lemma get_row_set_other period period' row page :
  period <> period' ->
  get_row period (set_row period' row page) = get_row period page.
Proof. by destruct period, period'. Qed.

Lemma set_row_set_row period row row' page :
  set_row period row (set_row period row' page) = set_row period row page.
Proof. by destruct period. Qed.

Lemma set_row_get_row period page :
  set_row period (get_row period page) page = page.
Proof. by destruct period, page. Qed.

(** One round of the loop that succeeds, and one that throws. *)
Lemma update_child_ok period items (i : nat) item page :
  items !! i = Some (Some item) ->
  (i < length (get_row period page))%nat ->
  update_child period items i page
  = (set_row period (<[i := item_src item]> (get_row period page)) page,
     Return tt).
Proof.
  intros Hitem Hrow. apply lookup_lt_is_Some_2 in Hrow as [src Hsrc].
  unfold update_child, mbind, Handler_bind. rewrite Hitem. cbn.
  by rewrite Hsrc.
Qed.

Lemma update_child_undefined period items (i : nat) page :
  mjoin (items !! i) = None ->
  update_child period items i page = (page, Throw TypeError).
Proof.
  intros Hitem. unfold update_child, mbind, Handler_bind. by rewrite Hitem.
Qed.

Lemma for_each_children period items its :
  forall (j : nat) page,
    (forall (k : nat) item,
       its !! k = Some item -> items !! (j + k)%nat = Some (Some item)) ->
    (j + length its <= length (get_row period page))%nat ->
    for_each (update_child period items) (seq j (length its)) page
    = (set_row period
         (take j (get_row period page) ++ (item_src <$> its)
          ++ drop (j + length its) (get_row period page)) page,
       Return tt).
Proof.
  induction its as [|item its IH]; intros j page Hitems Hrow.
  - cbn [length seq for_each]. rewrite Nat.add_0_r. cbn [fmap list_fmap app].
    by rewrite take_drop, set_row_get_row.
  - cbn [length seq for_each] in *. unfold mbind, Handler_bind.
    rewrite (update_child_ok _ _ _ item).
    2:{ rewrite <- (Nat.add_0_r j). by apply Hitems. }
    2:{ lia. }
    rewrite IH.
    2:{ intros k it Hk. rewrite Nat.add_succ_comm. by apply Hitems. }
    2:{ rewrite get_row_set_row, length_insert. lia. }
    rewrite get_row_set_row, set_row_set_row. do 2 f_equal.
    rewrite (take_S_r _ _ (item_src item))
      by (apply list_lookup_insert_eq; lia).
    rewrite take_insert_ge by lia. rewrite drop_insert_lt by lia.
    replace (j + S (length its))%nat with (S j + length its)%nat by lia.
    by rewrite <- app_assoc.
Qed.

Lemma for_each_children_stop period items its (m : nat) :
  forall (j : nat) page,
    (forall (k : nat) item,
       its !! k = Some item -> items !! (j + k)%nat = Some (Some item)) ->
    mjoin (items !! (j + length its)%nat) = None ->
    (j + length its <= length (get_row period page))%nat ->
    for_each (update_child period items) (seq j (length its + S m)) page
    = (set_row period
         (take j (get_row period page) ++ (item_src <$> its)
          ++ drop (j + length its) (get_row period page)) page,
       Throw TypeError).
Proof.
  induction its as [|item its IH]; intros j page Hitems Hstop Hrow.
  - cbn [length seq for_each Nat.add] in *. rewrite Nat.add_0_r in *.
    unfold mbind, Handler_bind. rewrite update_child_undefined by done.
    cbn [fmap list_fmap app]. by rewrite take_drop, set_row_get_row.
  - cbn [length seq for_each Nat.add] in *. unfold mbind, Handler_bind.
    rewrite (update_child_ok _ _ _ item).
    2:{ rewrite <- (Nat.add_0_r j). by apply Hitems. }
    2:{ lia. }
    rewrite IH.
    2:{ intros k it Hk. rewrite Nat.add_succ_comm. by apply Hitems. }
    2:{ by rewrite Nat.add_succ_comm. }
    2:{ rewrite get_row_set_row, length_insert. lia. }
    rewrite get_row_set_row, set_row_set_row. do 2 f_equal.
    rewrite (take_S_r _ _ (item_src item))
      by (apply list_lookup_insert_eq; lia).
    rewrite take_insert_ge by lia. rewrite drop_insert_lt by lia.
    replace (j + S (length its))%nat with (S j + length its)%nat by lia.
    by rewrite <- app_assoc.
Qed.

(** X10. When the first five entries of [items] are items and the row
    has at least five children, [UpdateItems] writes the address of
    each item into the child at its position, leaves the other children
    alone and returns. *)
Theorem UpdateItems_writes_five period items its page :
  (forall (k : nat) item,
     its !! k = Some item -> items !! k = Some (Some item)) ->
  length its = 5%nat ->
  (5 <= length (get_row period page))%nat ->
  UpdateItems period items page
  = (set_row period
       ((item_src <$> its) ++ drop 5 (get_row period page)) page,
     Return tt).
Proof.
  intros Hitems Hlen Hrow. unfold UpdateItems. rewrite <- Hlen.
  rewrite (for_each_children period items its 0 page); [| done | lia].
  by rewrite take_0.
Qed.

Lemma UpdateItems_writes_five_witness :
  length [power_treads; bfury; tango; tpscroll; branches] = 5%nat
  /\ (5 <= length (get_row early_game_items example_page))%nat
  /\ early_game_row
       (UpdateItems early_game_items
          (slice5 (MostBought example_env early_game_items example_stats))
          example_page).1
     = item_src <$> [power_treads; bfury; tango; tpscroll; branches].
Proof.
  assert (length [power_treads; bfury; tango; tpscroll; branches] = 5%nat)
    as Hlen by reflexivity.
  assert (5 <= length (get_row early_game_items example_page))%nat as Hrow
    by (vm_compute; lia).
  split; [exact Hlen|]. split; [exact Hrow|].
  rewrite (UpdateItems_writes_five early_game_items _
             [power_treads; bfury; tango; tpscroll; branches]
             example_page); [reflexivity | | exact Hlen | exact Hrow].
  intros [|[|[|[|[|k]]]]] item; intros [= <-]; reflexivity.
Defined.

(** X11. At the first entry that is [undefined], [UpdateItems] throws a
    TypeError: the children before that position hold the addresses of
    their items, the children from that position on are unchanged. *)
Theorem UpdateItems_stops_at_undefined period items its page :
  (forall (k : nat) item,
     its !! k = Some item -> items !! k = Some (Some item)) ->
  mjoin (items !! length its) = None ->
  (length its < 5)%nat ->
  (length its <= length (get_row period page))%nat ->
  UpdateItems period items page
  = (set_row period
       ((item_src <$> its) ++ drop (length its) (get_row period page)) page,
     Throw TypeError).
Proof.
  intros Hitems Hstop Hlen Hrow. unfold UpdateItems.
  replace 5%nat with (length its + S (4 - length its))%nat by lia.
  rewrite (for_each_children_stop period items its _ 0 page); done.
Qed.

Lemma UpdateItems_stops_at_undefined_witness :
  (length [tango] < 5)%nat
  /\ UpdateItems late_game_items
       (slice5 (MostBought example_env late_game_items example_stats))
       example_page
     = (set_row late_game_items [item_src tango; ""; ""; ""; ""] example_page,
        Throw TypeError).
Proof.
  assert (length [tango] < 5)%nat as Hlen by (vm_compute; lia).
  split; [exact Hlen|].
  rewrite (UpdateItems_stops_at_undefined late_game_items _ [tango]
             example_page); [reflexivity | | reflexivity | exact Hlen |].
  - intros [|k] item; intros [= <-]; reflexivity.
  - vm_compute; lia.
Defined.

(** Whatever happens, [UpdateItems] changes nothing but its row. *)
Lemma for_each_row_only period items (indices : list nat) page :
  exists row,
    (for_each (update_child period items) indices page).1
    = set_row period row page.
Proof.
  revert page. induction indices as [|i indices IH]; intros page.
  - exists (get_row period page). cbn. by rewrite set_row_get_row.
  - cbn [for_each]. unfold mbind, Handler_bind.
    destruct (mjoin (items !! i)) as [item|] eqn:Hitem.
    + destruct (get_row period page !! i) as [src|] eqn:Hsrc.
      * assert (update_child period items i page
                = (set_row period (<[i := item_src item]> (get_row period page))
                     page, Return tt)) as ->.
        { unfold update_child, mbind, Handler_bind. rewrite Hitem. cbn.
          by rewrite Hsrc. }
        destruct (IH (set_row period (<[i := item_src item]> (get_row period page))
                        page)) as [row Hrow].
        exists row. by rewrite Hrow, set_row_set_row.
      * assert (update_child period items i page = (page, Throw TypeError)) as ->.
        { unfold update_child, mbind, Handler_bind. rewrite Hitem. cbn.
          by rewrite Hsrc. }
        exists (get_row period page). cbn. by rewrite set_row_get_row.
    + rewrite update_child_undefined by done.
      exists (get_row period page). cbn. by rewrite set_row_get_row.
Qed.

Lemma UpdateItems_row_only period items page :
  exists row, (UpdateItems period items page).1 = set_row period row page.
Proof. apply for_each_row_only. Qed.

End PageWrites.

(** ** Updating the page *)

Section PageUpdate.

Context (env : Env).

Implicit Types (page : Page) (period : Period) (stats : Stats)
  (hero : HeroRecord).

Lemma slice5_top_five period stats :
  (5 <= length (filtered env (stats_get stats period))
        + length (pool env (stats_get stats period)))%nat ->
  slice5 (MostBought env period stats)
    = Some <$> top_five env (stats_get stats period)
  /\ length (top_five env (stats_get stats period)) = 5%nat.
Proof.
  intros Hsum. unfold slice5, top_five. rewrite MostBought_three_parts.
  replace (5 - length (filtered env (stats_get stats period))
           - length (pool env (stats_get stats period)))%nat with 0%nat by lia.
  cbn [replicate]. rewrite app_nil_r, <- fmap_app, fmap_take. split; [done|].
  rewrite length_take, length_app, length_take. lia.
Qed.

(** The loop over the entries of a phase: it returns when none is
    missing and throws otherwise, and changes its row only. *)
Lemma UpdateItems_phase period stats page :
  (5 <= length (get_row period page))%nat ->
  ((5 <= length (filtered env (stats_get stats period))
         + length (pool env (stats_get stats period)))%nat ->
   UpdateItems period (slice5 (MostBought env period stats)) page
   = (set_row period
        ((item_src <$> top_five env (stats_get stats period))
         ++ drop 5 (get_row period page)) page,
      Return tt))
  /\ ((length (filtered env (stats_get stats period))
       + length (pool env (stats_get stats period)) < 5)%nat ->
      exists row,
        UpdateItems period (slice5 (MostBought env period stats)) page
        = (set_row period row page, Throw TypeError)).
Proof.
  intros Hrow. split; intros Hsum.
  - destruct (slice5_top_five period stats Hsum) as [Heq Hlen].
    apply UpdateItems_writes_five; try done.
    intros k item Hk. by rewrite Heq, list_lookup_fmap, Hk.
  - set (F := filtered env (stats_get stats period)) in *.
    set (P := pool env (stats_get stats period)) in *.
    assert (slice5 (MostBought env period stats)
            = (Some <$> (F ++ P)) ++ replicate (5 - length F - length P) None)
      as Heq.
    { unfold slice5. rewrite MostBought_three_parts. fold F P.
      rewrite (take_ge P) by lia. rewrite app_assoc, <- fmap_app.
      apply take_ge.
      rewrite length_app, length_fmap, length_app, length_replicate. lia. }
    eexists.
    apply (UpdateItems_stops_at_undefined period _ (F ++ P)).
    + intros k item Hk. rewrite Heq.
      rewrite lookup_app_l
        by (rewrite length_fmap; by apply lookup_lt_Some in Hk).
      by rewrite list_lookup_fmap, Hk.
    + rewrite Heq, lookup_app_r by (rewrite length_fmap; lia).
      rewrite length_fmap, Nat.sub_diag, lookup_replicate_2 by lia. done.
    + rewrite length_app. lia.
    + rewrite length_app. lia.
Qed.

Lemma UpdatePage_found heroName hero page :
  GetHero (HERO_STATS env) heroName = Some hero ->
  UpdatePage env heroName page
  = (let heroConstant := HERO_CONSTANTS env !! hero_id hero in
      _ ← modify (set_hero_name (toUpperCase (localized_name hero)));
      let attribute := attr_dict (primary_attr hero) in
      let attributeImage :=
        "images/" +:+ property_key attribute +:+ ".png" in
      _ ← defined attribute;
      _ ← modify (set_attribute attributeImage);
      _ ← modify (set_winrate ("Winrate: " +:+ WinRate hero +:+ "%"));
      constant ← defined heroConstant;
      _ ← modify (set_hero_image ("https://cdn.dota2.com/" +:+ hero_img constant));
      items ← await (MostBoughtItems env (hero_id hero));
      _ ← UpdateItems early_game_items (early_game items);
      _ ← UpdateItems mid_game_items (mid_game items);
      UpdateItems late_game_items (late_game items)) page.
Proof. intros Hget. unfold UpdatePage. by rewrite Hget. Qed.

(** X12. When the hero is found, its attribute is one of the four
    known ones, its constants exist, the popularity data arrive with
    their three phases, every phase has five items to show and every row
    has five children,
    [UpdatePage] returns and the page shows the name in capitals, the
    attribute picture, the win rate, the hero picture and in each row
    the five items of the phase; the search field and the alerts are as
    before. *)
Theorem UpdatePage_shows_hero heroName hero attr constant stats page :
  GetHero (HERO_STATS env) heroName = Some hero ->
  attr_dict (primary_attr hero) = Some attr ->
  HERO_CONSTANTS env !! hero_id hero = Some constant ->
  ItemPopularity env (hero_id hero) = Popularity stats ->
  (forall period,
     5 <= length (filtered env (stats_get stats period))
          + length (pool env (stats_get stats period)))%nat ->
  (forall period, 5 <= length (get_row period page))%nat ->
  UpdatePage env heroName page
  = ({| hero_search := hero_search page;
        hero_name := toUpperCase (localized_name hero);
        attribute := "images/" +:+ attr +:+ ".png";
        winrate := "Winrate: " +:+ WinRate hero +:+ "%";
        hero_image := "https://cdn.dota2.com/" +:+ hero_img constant;
        early_game_row :=
          (item_src <$> top_five env (early stats))
          ++ drop 5 (early_game_row page);
        mid_game_row :=
          (item_src <$> top_five env (mid stats))
          ++ drop 5 (mid_game_row page);
        late_game_row :=
          (item_src <$> top_five env (late stats))
          ++ drop 5 (late_game_row page);
        alerts := alerts page |},
     Return tt).
Proof.
  intros Hget Hattr Hconst Hstats Hfive Hrows.
  rewrite (UpdatePage_found _ _ _ Hget). cbn zeta.
  unfold MostBoughtItems. rewrite Hattr, Hconst, Hstats.
  unfold mbind, Handler_bind, modify, defined, mret, Handler_ret, await.
  cbn [property_key early_game mid_game late_game].
  set (p4 := set_hero_image _ _).
  rewrite (proj1 (UpdateItems_phase early_game_items stats p4
                    (Hrows early_game_items)) (Hfive _)).
  set (p5 := set_row early_game_items _ p4).
  rewrite (proj1 (UpdateItems_phase mid_game_items stats p5
                    (Hrows mid_game_items)) (Hfive _)).
  set (p6 := set_row mid_game_items _ p5).
  rewrite (proj1 (UpdateItems_phase late_game_items stats p6
                    (Hrows late_game_items)) (Hfive _)).
  reflexivity.
Qed.

(** X13. Under the same conditions on the hero, the tables and the
    rows, [UpdatePage] returns exactly when every phase has five items
    to show; otherwise it ends in a TypeError, and the name, the win
    rate and the picture of the hero are on the page all the same. *)
Theorem UpdatePage_returns_iff heroName hero attr constant stats page :
  GetHero (HERO_STATS env) heroName = Some hero ->
  attr_dict (primary_attr hero) = Some attr ->
  HERO_CONSTANTS env !! hero_id hero = Some constant ->
  ItemPopularity env (hero_id hero) = Popularity stats ->
  (forall period, 5 <= length (get_row period page))%nat ->
  ((UpdatePage env heroName page).2 = Return tt
   <-> forall period,
         (5 <= length (filtered env (stats_get stats period))
               + length (pool env (stats_get stats period)))%nat)
  /\ ((UpdatePage env heroName page).2 = Return tt
      \/ (UpdatePage env heroName page).2 = Throw TypeError)
  /\ hero_name (UpdatePage env heroName page).1
     = toUpperCase (localized_name hero)
  /\ winrate (UpdatePage env heroName page).1
     = "Winrate: " +:+ WinRate hero +:+ "%"
  /\ hero_image (UpdatePage env heroName page).1
     = "https://cdn.dota2.com/" +:+ hero_img constant.
Proof.
  intros Hget Hattr Hconst Hstats Hrows.
  rewrite (UpdatePage_found _ _ _ Hget). cbn zeta.
  unfold MostBoughtItems. rewrite Hattr, Hconst, Hstats.
  unfold mbind, Handler_bind, modify, defined, mret, Handler_ret, await.
  cbn [property_key early_game mid_game late_game].
  set (p4 := set_hero_image _ _).
  destruct (UpdateItems_phase early_game_items stats p4
              (Hrows early_game_items)) as [Hok1 Hbad1].
  destruct (decide (5 <= length (filtered env (stats_get stats early_game_items))
                         + length (pool env (stats_get stats early_game_items)))%nat)
    as [H1|H1].
  2:{ destruct Hbad1 as [row ->]; [lia|]. cbn [fst snd].
      repeat split; try done; [|by right].
      intros Hall. specialize (Hall early_game_items). lia. }
  rewrite (Hok1 H1). set (p5 := set_row early_game_items _ p4).
  destruct (UpdateItems_phase mid_game_items stats p5
              (Hrows mid_game_items)) as [Hok2 Hbad2].
  destruct (decide (5 <= length (filtered env (stats_get stats mid_game_items))
                         + length (pool env (stats_get stats mid_game_items)))%nat)
    as [H2|H2].
  2:{ destruct Hbad2 as [row ->]; [lia|]. cbn [fst snd].
      repeat split; try done; [|by right].
      intros Hall. specialize (Hall mid_game_items). lia. }
  rewrite (Hok2 H2). set (p6 := set_row mid_game_items _ p5).
  destruct (UpdateItems_phase late_game_items stats p6
              (Hrows late_game_items)) as [Hok3 Hbad3].
  destruct (decide (5 <= length (filtered env (stats_get stats late_game_items))
                         + length (pool env (stats_get stats late_game_items)))%nat)
    as [H3|H3].
  2:{ destruct Hbad3 as [row ->]; [lia|]. cbn [fst snd].
      repeat split; try done; [|by right].
      intros Hall. specialize (Hall late_game_items). lia. }
  rewrite (Hok3 H3). cbn [fst snd].
  repeat split; try done; [|by left].
  intros _ []; assumption.
Qed.

Lemma UpdatePage_keeps heroName page :
  hero_search (UpdatePage env heroName page).1 = hero_search page
  /\ match GetHero (HERO_STATS env) heroName with
     | None =>
         UpdatePage env heroName page
         = ({| hero_search := hero_search page; hero_name := hero_name page;
               attribute := attribute page; winrate := winrate page;
               hero_image := hero_image page;
               early_game_row := early_game_row page;
               mid_game_row := mid_game_row page;
               late_game_row := late_game_row page;
               alerts := alerts page ++ ["Could not find that hero."] |},
            Return tt)
     | Some _ => alerts (UpdatePage env heroName page).1 = alerts page
     end.
Proof.
  destruct (GetHero (HERO_STATS env) heroName) as [hero|] eqn:Hget.
  2:{ unfold UpdatePage. rewrite Hget. by split. }
  rewrite (UpdatePage_found _ _ _ Hget). cbn zeta.
  unfold mbind, Handler_bind, modify, defined, mret, Handler_ret, throw, await.
  destruct (attr_dict (primary_attr hero)) as [attr|]; [|by split].
  destruct (HERO_CONSTANTS env !! hero_id hero) as [constant|]; [|by split].
  destruct (MostBoughtItems env (hero_id hero)) as [items|e]; [|by split].
  set (p4 := set_hero_image _ _).
  destruct (UpdateItems_row_only early_game_items (early_game items) p4)
    as [row1 Hrow1].
  destruct (UpdateItems early_game_items (early_game items) p4) as [p5 c5].
  cbn [fst] in Hrow1. subst p5. destruct c5 as [[]|e]; [|by split].
  set (p5 := set_row early_game_items row1 p4).
  destruct (UpdateItems_row_only mid_game_items (mid_game items) p5)
    as [row2 Hrow2].
  destruct (UpdateItems mid_game_items (mid_game items) p5) as [p6 c6].
  cbn [fst] in Hrow2. subst p6. destruct c6 as [[]|e]; [|by split].
  set (p6 := set_row mid_game_items row2 p5).
  destruct (UpdateItems_row_only late_game_items (late_game items) p6)
    as [row3 Hrow3].
  destruct (UpdateItems late_game_items (late_game items) p6) as [p7 c7].
  cbn [fst] in Hrow3. subst p7. by split.
Qed.

(** X14. [UpdatePage] never writes the search field. When no hero
    matches it adds the alert "Could not find that hero.", leaves the
    rest of the page as it is and returns; when a hero matches it adds
    no alert, however the call ends. *)
Theorem UpdatePage_search_field_and_alerts heroName page :
  hero_search (UpdatePage env heroName page).1 = hero_search page
  /\ match GetHero (HERO_STATS env) heroName with
     | None =>
         UpdatePage env heroName page
         = ({| hero_search := hero_search page; hero_name := hero_name page;
               attribute := attribute page; winrate := winrate page;
               hero_image := hero_image page;
               early_game_row := early_game_row page;
               mid_game_row := mid_game_row page;
               late_game_row := late_game_row page;
               alerts := alerts page ++ ["Could not find that hero."] |},
            Return tt)
     | Some _ => alerts (UpdatePage env heroName page).1 = alerts page
     end.
Proof. apply UpdatePage_keeps. Qed.

(** X15. [RandomHero] always leaves the search field empty. When the
    index it draws is no position of the roster it changes nothing else
    and ends in a TypeError. [SearchHero] leaves the field empty when
    the query is blank and as it was typed otherwise. *)
Theorem buttons_search_field (random : spec_float) page :
  hero_search (RandomHero env random page).1 = ""
  /\ (array_get (HERO_STATS env)
        (RandomIntFromInterval random 0
           (Z.of_nat (length (HERO_STATS env)))) = None ->
      RandomHero env random page
      = (set_hero_search "" page, Throw TypeError))
  /\ hero_search (SearchHero env random page).1
     = if String.eqb (trim (toLowerCase (hero_search page))) ""
       then "" else hero_search page.
Proof.
  assert (hero_search (RandomHero env random page).1 = "") as Hrandom.
  { unfold RandomHero, mbind, Handler_bind, modify, defined, mret,
      Handler_ret, throw.
    destruct (array_get _ _) as [targetHero|]; [|done].
    by rewrite (proj1 (UpdatePage_keeps _ _)). }
  split; [exact Hrandom|]. split.
  - intros Hnone. unfold RandomHero, mbind, Handler_bind, modify, defined.
    by rewrite Hnone.
  - unfold SearchHero.
    destruct (String.eqb (trim (toLowerCase (hero_search page))) "");
      [exact Hrandom|].
    apply UpdatePage_keeps.
Qed.

(** X16. When the index that [RandomHero] draws is a position of the
    roster, and unless the hero there is called "io" internally without
    being called so on display, [RandomHero] finds a hero for the short
    name of the pick, that hero or an entry before it, and shows no
    alert. *)
Theorem RandomHero_pick_is_found (random : spec_float) target page :
  array_get (HERO_STATS env)
    (RandomIntFromInterval random 0 (Z.of_nat (length (HERO_STATS env))))
  = Some target ->
  short_name target <> "io" \/ toLowerCase (localized_name target) = "io" ->
  RandomHero env random page
  = UpdatePage env (short_name target) (set_hero_search "" page)
  /\ (exists hero before after,
        GetHero (HERO_STATS env) (short_name target) = Some hero
        /\ HERO_STATS env = before ++ hero :: after
        /\ (hero = target \/ target ∈ after))
  /\ alerts (RandomHero env random page).1 = alerts page.
Proof.
  intros Hpick Hio.
  assert (RandomHero env random page
          = UpdatePage env (short_name target) (set_hero_search "" page))
    as Heq.
  { unfold RandomHero, mbind, Handler_bind, modify, defined. by rewrite Hpick. }
  assert (target ∈ HERO_STATS env) as Hin.
  { unfold array_get in Hpick.
    destruct (RandomIntFromInterval _ _ _) as [z|]; [|done].
    destruct (z <? 0); [done|]. by apply list_elem_of_lookup_2 in Hpick. }
  destruct (GetHero_own_short_name_found _ _ Hin Hio)
    as (hero & before & after & Hget & Hroster & Hpos).
  split; [exact Heq|]. split; [by exists hero, before, after|].
  rewrite Heq. pose proof (UpdatePage_keeps (short_name target)
                              (set_hero_search "" page)) as [_ Halerts].
  by rewrite Hget in Halerts.
Qed.

End PageUpdate.

(** The pick at position 0 of the example roster. *)
Lemma RandomHero_pick_is_found_witness :
  array_get (HERO_STATS example_env)
    (RandomIntFromInterval (S754_zero false) 0
       (Z.of_nat (length (HERO_STATS example_env))))
  = Some lion
  /\ alerts (RandomHero example_env (S754_zero false) example_page).1
     = alerts example_page.
Proof.
  assert (array_get (HERO_STATS example_env)
            (RandomIntFromInterval (S754_zero false) 0
               (Z.of_nat (length (HERO_STATS example_env))))
          = Some lion) as Hpick by reflexivity.
  assert (short_name lion <> "io"
          \/ toLowerCase (localized_name lion) = "io") as Hio
    by (left; discriminate).
  split; [exact Hpick|].
  apply (RandomHero_pick_is_found example_env _ lion example_page Hpick Hio).
Defined.

(** Lion on the page of the example, with popularity data that fill
    every phase. *)
Lemma UpdatePage_shows_hero_witness :
  GetHero (HERO_STATS full_env) "lion" = Some lion
  /\ (UpdatePage full_env "lion" example_page).2 = Return tt
  /\ winrate (UpdatePage full_env "lion" example_page).1 = "Winrate: 50.00%".
Proof.
  assert (GetHero (HERO_STATS full_env) "lion" = Some lion) as Hget
    by reflexivity.
  assert (attr_dict (primary_attr lion) = Some "intelligence") as Hattr
    by reflexivity.
  assert (HERO_CONSTANTS full_env !! hero_id lion
          = Some {| hero_img := "/img/lion.png" |}) as Hconst by reflexivity.
  assert (ItemPopularity full_env (hero_id lion) = Popularity full_stats) as Hstats
    by reflexivity.
  assert (forall period,
            5 <= length (filtered full_env (stats_get full_stats period))
                 + length (pool full_env (stats_get full_stats period)))%nat
    as Hfive by (intros []; vm_compute; lia).
  assert (forall period, 5 <= length (get_row period example_page))%nat
    as Hrows by (intros []; vm_compute; lia).
  split; [exact Hget|].
  rewrite (UpdatePage_shows_hero full_env "lion" lion _ _ _ example_page
             Hget Hattr Hconst Hstats Hfive Hrows).
  split; reflexivity.
Defined.

(** Lion again, with the popularity data of the example, whose late
    game has a single item. *)
Lemma UpdatePage_returns_iff_witness :
  GetHero (HERO_STATS example_env) "lion" = Some lion
  /\ (UpdatePage example_env "lion" example_page).2 = Throw TypeError
  /\ hero_name (UpdatePage example_env "lion" example_page).1 = "LION".
Proof.
  assert (GetHero (HERO_STATS example_env) "lion" = Some lion) as Hget
    by reflexivity.
  assert (attr_dict (primary_attr lion) = Some "intelligence") as Hattr
    by reflexivity.
  assert (HERO_CONSTANTS example_env !! hero_id lion
          = Some {| hero_img := "/img/lion.png" |}) as Hconst by reflexivity.
  assert (ItemPopularity example_env (hero_id lion) = Popularity example_stats)
    as Hstats by reflexivity.
  assert (forall period, 5 <= length (get_row period example_page))%nat
    as Hrows by (intros []; vm_compute; lia).
  split; [exact Hget|].
  destruct (UpdatePage_returns_iff example_env "lion" lion _ _ _ example_page
              Hget Hattr Hconst Hstats Hrows)
    as (Hiff & [Hret | Hthrow] & Hname & _).
  - exfalso. pose proof (proj1 Hiff Hret late_game_items) as Hlate.
    vm_compute in Hlate. lia.
  - split; [exact Hthrow | exact Hname].
Defined.

(** ** The range of the random index *)

Section RandomIndex.

Lemma shr_nonpos mrs e (k : Z) : k <= 0 -> shr mrs e k = (mrs, e).
Proof. intros Hk. destruct k; [done | lia | done]. Qed.

Lemma digits2_le (p : positive) (d : Z) :
  Z.pos p < 2 ^ d -> 0 <= d -> Z.pos (digits2_pos p) <= d.
Proof.
  intros Hp Hd. pose proof (digits2_bounds p) as Hb.
  destruct (Z.leb_spec (Z.pos (digits2_pos p)) d); [done|].
  assert (2 ^ d <= 2 ^ (Z.pos (digits2_pos p) - 1)) by (apply Z.pow_le_mono_r; lia).
  lia.
Qed.

(** Rounding in general, the subnormal range included: the result is a
    zero or a finite number at the rounding exponent or one above, and
    it is within half a unit of the exact value. *)
Lemma binary_round_aux_abs sx (mx : positive) ex a b :
  0 <= a < b ->
  let n := Z.max (Z.pos (digits2_pos mx) + ex - 53) (-1074) - ex in
  0 <= n -> ex + n + 1 <= 971 ->
  exists X2 : Z,
    0 <= X2
    /\ 2 * Z.abs (X2 * (2 ^ n * b) - (Z.pos mx * b + a)) <= 2 ^ n * b
    /\ (binary_round_aux 53 1024 sx (Z.pos mx) ex (loc_of a b) = S754_zero sx
        \/ exists m2 e2,
             binary_round_aux 53 1024 sx (Z.pos mx) ex (loc_of a b)
               = S754_finite sx m2 e2
             /\ ex + n <= e2
             /\ Z.pos m2 * 2 ^ (e2 - (ex + n)) = X2).
Proof.
  intros Hab n Hn Hhi.
  unfold binary_round_aux, shr_fexp.
  replace (fexp 53 1024 (Zdigits2 (Z.pos mx) + ex) - ex) with n
    by (unfold fexp, emin, Zdigits2; lia).
  destruct (record_of_loc_located (Z.pos mx) a b) as [Hloc Hm0]; [lia | lia |].
  destruct (shr_record_of_loc (Z.pos mx) (loc_of a b)) as [m0 r0 s0].
  cbn [shr_m shr_r shr_s] in Hloc, Hm0. subst m0.
  pose proof (shr_spec _ _ _ _ _ ex n Hn Hloc) as Hshr.
  destruct (shr _ ex n) as [[m' r' s'] e'].
  cbn [shr_m shr_r shr_s] in Hshr. destruct Hshr as (Hloc' & Hm' & ->).
  pose proof (round_located _ _ _ _ _ Hloc') as [Hm1 Hbound].
  unfold round_record in Hm1, Hbound. cbn [shr_m] in Hm1, Hbound |- *.
  set (m1 := round_nearest_even m' _) in *.
  assert (0 <= m' < 2 ^ 53) as Hm'b.
  { pose proof (digits2_bounds mx) as Hd.
    assert (0 < 2 ^ n) by (apply Z.pow_pos_nonneg; lia).
    assert (2 ^ Z.pos (digits2_pos mx) <= 2 ^ (n + 53))
      by (apply Z.pow_le_mono_r; lia).
    rewrite Z.pow_add_r in * by lia.
    subst m'. split.
    - apply Z.div_pos; lia.
    - apply Z.div_lt_upper_bound; lia. }
  exists m1. split; [lia|]. split; [exact Hbound|].
  destruct (Z.ltb_spec m1 (2 ^ 53)) as [Hsmall|Hcarry].
  - destruct m1 as [|p1|p1] eqn:Em1; try lia.
    + left. cbn [Zdigits2].
      rewrite shr_nonpos by (unfold fexp, emin; lia). done.
    + right.
      assert (Z.pos (digits2_pos p1) <= 53) as Hd1 by (apply digits2_le; lia).
      rewrite shr_nonpos by (unfold fexp, emin, Zdigits2; lia).
      cbn [shr_record_of_loc shr_m].
      replace (ex + n <=? 1024 - 53) with true by (symmetry; apply Z.leb_le; lia).
      exists p1, (ex + n). repeat split; try lia.
      rewrite Z.sub_diag. simpl. lia.
  - right. assert (m1 = 2 ^ 53) as Em1 by lia.
    rewrite Em1 in *.
    replace (fexp 53 1024 (Zdigits2 (2 ^ 53) + (ex + n)) - (ex + n)) with 1
      by (unfold fexp, emin; change (Zdigits2 (2 ^ 53)) with 54; lia).
    change (shr (shr_record_of_loc (2 ^ 53) loc_Exact) (ex + n) 1)
      with ({| shr_m := 2 ^ 52; shr_r := false; shr_s := false |}, ex + n + 1).
    cbn [shr_m]. change (2 ^ 52) with (Z.pos (2 ^ 52)).
    replace (ex + n + 1 <=? 1024 - 53) with true by (symmetry; apply Z.leb_le; lia).
    exists (2 ^ 52)%positive, (ex + n + 1). repeat split; try lia.
    replace (ex + n + 1 - (ex + n)) with 1 by lia. reflexivity.
Qed.

(** A valid double in [0, 1) is a zero or has a mantissa below 2^53 at
    an exponent of at most -53. *)
Lemma random_shape (r : spec_float) :
  valid_binary 53 1024 r = true ->
  SFleb (Number.of_Z 0) r = true -> SFltb r (Number.of_Z 1) = true ->
  (exists s, r = S754_zero s)
  \/ exists m e, r = S754_finite false m e /\ e <= -53 /\ Z.pos m < 2 ^ 53.
Proof.
  intros Hvalid Hle Hlt. destruct r as [s|s| |s m e]; try done.
  - left. by exists s.
  - by destruct s.
  - right. destruct s; [done|]. exists m, e. split; [done|].
    unfold valid_binary, bounded, canonical_mantissa, fexp, emin in Hvalid.
    apply andb_prop in Hvalid as [Hcanon _]. apply Z.eqb_eq in Hcanon.
    pose proof (digits2_bounds m) as Hd.
    assert (Z.pos (digits2_pos m) <= 53) as Hd53 by lia.
    assert (2 ^ (Z.pos (digits2_pos m) - 1 + 1) <= 2 ^ 53)
      by (apply Z.pow_le_mono_r; lia).
    replace (Z.pos (digits2_pos m) - 1 + 1) with (Z.pos (digits2_pos m)) in * by lia.
    split; [|lia].
    change (Number.of_Z 1)
      with (S754_finite false 4503599627370496 (-52)) in Hlt.
    unfold SFltb, SFcompare in Hlt.
    destruct (Z.compare_spec e (-52)) as [He|He|He]; try done; [|lia].
    subst e. exfalso.
    destruct (Pos.compare_cont Eq m 4503599627370496) eqn:Hcmp; try done.
    assert (m < 4503599627370496)%positive as Hcmp'
      by (apply Pos.compare_lt_iff; exact Hcmp).
    assert (Z.pos m < 2 ^ 52) as Hm by (apply Pos2Z.pos_lt_pos, Hcmp').
    clear Hcmp Hcmp' Hlt.
    assert (Z.pos (digits2_pos m) <= 52) by (apply digits2_le; lia).
    lia.
Qed.

(** The product of a double in [0, 1) with the double of a positive
    integer [p], floored, is an integer from 0 to [p - 1]. *)
Lemma floor_random_mul (r : spec_float) (p : positive) :
  valid_binary 53 1024 r = true ->
  SFleb (Number.of_Z 0) r = true -> SFltb r (Number.of_Z 1) = true ->
  Z.pos p < 2 ^ 53 ->
  exists k,
    Number.floor
      (SFadd 53 1024
         (SFmul 53 1024 r (binary_normalize 53 1024 (Z.pos p) 0 false))
         (S754_zero false)) = Some k
    /\ 0 <= k < Z.pos p.
Proof.
  intros Hvalid Hle Hlt Hp.
  destruct (normalize_pos p Hp) as (mk & u & -> & Hu & Hmk & Hmkb).
  destruct (random_shape r Hvalid Hle Hlt) as [[s ->] | (m & e & -> & He & Hm)].
  { exists 0. split; [by destruct s | lia]. }
  cbn [SFmul xorb]. set (E := - e). 
  assert (53 <= E) by (subst E; lia).
  assert (0 < 2 ^ (E - 53)) as HA by (apply Z.pow_pos_nonneg; lia).
  assert (2 ^ E = 2 ^ 53 * 2 ^ (E - 53)) as HE
    by (rewrite <- Z.pow_add_r by lia; f_equal; lia).
  assert (Z.pos m <= 2 ^ E - 2 ^ (E - 53)) as Hmle.
  { destruct (Z.eq_dec E 53) as [->|].
    - change (2 ^ (53 - 53)) with 1. lia.
    - assert (2 ^ 53 <= 2 ^ (E - 1)) by (apply Z.pow_le_mono_r; lia).
      assert (2 ^ E = 2 * 2 ^ (E - 1))
        by (rewrite <- Z.pow_succ_r by lia; f_equal; lia).
      assert (2 ^ (E - 53) <= 2 ^ (E - 1)) by (apply Z.pow_le_mono_r; lia).
      lia. }
  set (M := (m * mk)%positive).
  assert (Z.pos M = Z.pos m * Z.pos mk) as HM by (subst M; lia).
  pose proof (digits2_bounds M) as Hd.
  set (d := Z.pos (digits2_pos M)) in *.
  assert (2 ^ 52 <= Z.pos M) as HMlo.
  { rewrite HM. transitivity (1 * Z.pos mk); [lia|].
    apply Z.mul_le_mono_nonneg_r; lia. }
  assert (Z.pos M < 2 ^ 106) as HMhi.
  { rewrite HM. change (2 ^ 106) with (2 ^ 53 * 2 ^ 53).
    apply Z.mul_lt_mono_nonneg; lia. }
  assert (53 <= d <= 106) as Hdb.
  { split.
    - destruct (Z.leb_spec 53 d); [done|].
      assert (2 ^ d <= 2 ^ 52) by (apply Z.pow_le_mono_r; lia). lia.
    - destruct (Z.leb_spec d 106); [done|].
      assert (2 ^ 106 <= 2 ^ (d - 1)) by (apply Z.pow_le_mono_r; lia). lia. }
  set (ex := e + - u).
  change loc_Exact with (loc_of 0 1).
  destruct (binary_round_aux_abs false M ex 0 1) as (X2 & HX2 & Hbound & Hres);
    [lia | fold d; lia | fold d; lia |].
  fold d in Hbound, Hres. set (n := Z.max (d + ex - 53) (-1074) - ex) in *.
  assert (0 <= n) by (subst n; lia).
  assert (0 < 2 ^ n) as Hn2 by (apply Z.pow_pos_nonneg; lia).
  rewrite !Z.mul_1_r, Z.add_0_r in Hbound.
  (* the rounded product stays below the integer *)
  assert (2 ^ n < 2 * 2 ^ (E - 53) * Z.pos mk) as Hhalf.
  { destruct (Z.max_spec (d + ex - 53) (-1074)) as [[_ Hmax]|[_ Hmax]].
    - (* subnormal result *)
      assert (n < E) by (subst n ex E; lia).
      assert (2 ^ n <= 2 ^ (E - 1)) by (apply Z.pow_le_mono_r; lia).
      assert (2 ^ E = 2 * 2 ^ (E - 1))
        by (rewrite <- Z.pow_succ_r by lia; f_equal; lia).
      assert (2 ^ (E - 53) * 2 ^ 52 <= 2 ^ (E - 53) * Z.pos mk)
        by (apply Z.mul_le_mono_nonneg_l; lia).
      lia.
    - assert (n = d - 53) as Hnd by (subst n; lia).
      assert (2 ^ (d - 1) = 2 ^ n * 2 ^ 52) as Hd1
        by (rewrite <- Z.pow_add_r by lia; f_equal; lia).
      assert (Z.pos m * Z.pos mk < 2 ^ E * Z.pos mk)
        by (apply Z.mul_lt_mono_pos_r; lia).
      nia. }
  assert (X2 * 2 ^ n < Z.pos mk * 2 ^ E) as Hbelow.
  { assert (Z.pos m * Z.pos mk <= (2 ^ E - 2 ^ (E - 53)) * Z.pos mk)
      by (apply Z.mul_le_mono_nonneg_r; lia).
    lia. }
  destruct Hres as [-> | (m2 & e2 & -> & He2 & HX)].
  { exists 0. split; [done | lia]. }
  cbn [SFadd Number.floor]. eexists. split; [reflexivity|].
  assert (0 < 2 ^ (e2 - (ex + n))) by (apply Z.pow_pos_nonneg; lia).
  assert (Z.pos m2 * 2 ^ (e2 - ex) < Z.pos p * 2 ^ (E + u)) as Hval.
  { replace (e2 - ex) with (e2 - (ex + n) + n) by lia.
    rewrite Z.pow_add_r, Z.mul_assoc, HX by lia.
    rewrite (Z.pow_add_r 2 E u) by lia. rewrite Hmk in Hbelow. lia. }
  assert (e2 - ex = e2 + (E + u)) as Hee by (subst ex E; lia).
  rewrite Hee in Hval.
  assert (0 < 2 ^ (E + u)) by (apply Z.pow_pos_nonneg; lia).
  destruct (Z.leb_spec 0 e2) as [Hpos|Hneg].
  - assert (0 < 2 ^ e2) by (apply Z.pow_pos_nonneg; lia).
    rewrite Z.pow_add_r, Z.mul_assoc in Hval by lia.
    split; [lia|].
    by apply (Z.mul_lt_mono_pos_r (2 ^ (E + u))).
  - assert (0 < 2 ^ (- e2)) by (apply Z.pow_pos_nonneg; lia).
    assert (0 <= e2 + (E + u)) by lia.
    assert (0 < 2 ^ (e2 + (E + u))) by (apply Z.pow_pos_nonneg; lia).
    assert (2 ^ (E + u) = 2 ^ (e2 + (E + u)) * 2 ^ (- e2)) as Hsplit
      by (rewrite <- Z.pow_add_r by lia; f_equal; lia).
    split; [apply Z.div_pos; lia|].
    apply Z.div_lt_upper_bound; [lia|].
    rewrite Hsplit in Hval.
    apply (Z.mul_lt_mono_pos_r (2 ^ (e2 + (E + u)))); [lia|].
    replace (2 ^ (- e2) * Z.pos p * 2 ^ (e2 + (E + u)))
      with (Z.pos p * (2 ^ (e2 + (E + u)) * 2 ^ (- e2))) by ring.
    exact Hval.
Qed.

Lemma floor_random_index (random : spec_float) (max : Z) :
  is_random random = true ->
  0 <= max -> max + 1 < 2 ^ 53 ->
  exists k, RandomIntFromInterval random 0 max = Some k /\ 0 <= k <= max.
Proof.
  intros Hrandom Hmax Hbig. unfold is_random in Hrandom.
  apply andb_prop in Hrandom as [[Hvalid Hle]%andb_prop Hlt].
  unfold RandomIntFromInterval, Number.add, Number.mul, Number.of_Z at 1 2,
    Number.prec, Number.emax.
  destruct (max - 0 + 1) as [|p|p] eqn:Hp; try lia.
  destruct (floor_random_mul random p Hvalid Hle Hlt ltac:(lia))
    as (k & Hk & Hrange).
  exists k. split; [exact Hk | lia].
Qed.

(** X17. For every value that [Math.random()] can return and every
    [max] from 0 up to 2^53 - 2, [RandomIntFromInterval(0, max)] is an
    integer from 0 to [max], both included: it is never negative, never
    above [max] and never NaN. *)
Theorem RandomIntFromInterval_in_range (random : spec_float) (max : Z) :
  is_random random = true ->
  0 <= max -> max + 1 < 2 ^ 53 ->
  exists k, RandomIntFromInterval random 0 max = Some k /\ 0 <= k <= max.
Proof. apply floor_random_index. Qed.

Lemma RandomIntFromInterval_in_range_witness :
  is_random three_quarters = true /\ 0 <= 3 /\ 3 + 1 < 2 ^ 53
  /\ exists k, RandomIntFromInterval three_quarters 0 3 = Some k /\ 0 <= k <= 3.
Proof.
  assert (is_random three_quarters = true) as Hrandom by reflexivity.
  assert (0 <= 3) as Hmax by lia.
  assert (3 + 1 < 2 ^ 53) as Hbig by lia.
  split; [exact Hrandom|]. split; [exact Hmax|]. split; [exact Hbig|].
  apply (RandomIntFromInterval_in_range three_quarters 3 Hrandom Hmax Hbig).
Defined.

(** X18. For every value that [Math.random()] can return, the read
    [HERO_STATS[...]] of [RandomHero] misses the roster in one case
    only: when the index drawn is the length of the roster. *)
Theorem RandomHero_misses_only_at_length (env : Env) (random : spec_float) :
  is_random random = true ->
  Z.of_nat (length (HERO_STATS env)) + 1 < 2 ^ 53 ->
  array_get (HERO_STATS env)
    (RandomIntFromInterval random 0 (Z.of_nat (length (HERO_STATS env))))
  = None
  <-> RandomIntFromInterval random 0 (Z.of_nat (length (HERO_STATS env)))
      = Some (Z.of_nat (length (HERO_STATS env))).
Proof.
  intros Hrandom Hbig.
  destruct (floor_random_index random (Z.of_nat (length (HERO_STATS env))))
    as (k & -> & Hk); [done | lia | done |].
  unfold array_get. destruct (Z.ltb_spec k 0) as [|_]; [lia|].
  rewrite lookup_ge_None. split.
  - intros Hge. f_equal. lia.
  - intros [= ->]. lia.
Qed.

Lemma RandomHero_misses_only_at_length_witness :
  is_random three_quarters = true
  /\ Z.of_nat (length (HERO_STATS example_env)) + 1 < 2 ^ 53
  /\ array_get (HERO_STATS example_env)
       (RandomIntFromInterval three_quarters 0
          (Z.of_nat (length (HERO_STATS example_env)))) = None.
Proof.
  assert (is_random three_quarters = true) as Hrandom by reflexivity.
  assert (Z.of_nat (length (HERO_STATS example_env)) + 1 < 2 ^ 53) as Hbig
    by (vm_compute; reflexivity).
  split; [exact Hrandom|]. split; [exact Hbig|].
  apply (RandomHero_misses_only_at_length example_env three_quarters
           Hrandom Hbig).
  reflexivity.
Defined.

End RandomIndex.

(** ** The range of the win rate *)

Section AggregatorMore.

Implicit Types hero : HeroRecord.

Lemma rounded_hundredths_le (wins picks : N) :
  (0 < picks)%N -> (wins <= picks)%N ->
  (rounded_hundredths wins picks <= 10000)%N.
Proof.
  intros Hpos Hle. unfold rounded_hundredths.
  apply N.lt_succ_r. apply N.Div0.div_lt_upper_bound. lia.
Qed.

(** X19. For every hero with positive total picks, at most 10^11 of
    them, and no more wins than picks, [WinRate] prints a number from
    0.00 to 100.00: the text of some [n] hundredths with [n <= 10000].
    Without a win it is 0.00, and with as many wins as picks it is
    100.00. *)
Theorem WinRate_between_0_and_100 hero :
  (0 < total_picks hero)%N ->
  (total_wins hero <= total_picks hero)%N ->
  (total_picks hero <= 10 ^ 11)%N ->
  (exists n : N, WinRate hero = Number.point2 n /\ (n <= 10000)%N)
  /\ (total_wins hero = 0%N -> WinRate hero = "0.00")
  /\ (total_wins hero = total_picks hero -> WinRate hero = "100.00").
Proof.
  intros Hpos Hle Hbound.
  destruct (WinRate_close hero Hpos Hle Hbound) as (n & Hn & Hclose).
  pose proof (rounded_hundredths_le _ _ Hpos Hle) as Hmax.
  split; [|split].
  - exists n. split; [exact Hn|]. destruct Hclose as [-> | [Heq _]]; lia.
  - intros Hzero. rewrite Hn. rewrite Hzero in Hclose.
    assert (rounded_hundredths 0 (total_picks hero) = 0%N) as Hr.
    { unfold rounded_hundredths. apply N.div_small. lia. }
    rewrite Hr in Hclose. destruct Hclose as [-> | [Heq _]]; [done | lia].
  - intros Hall. rewrite Hn. rewrite Hall in Hclose.
    assert (rounded_hundredths (total_picks hero) (total_picks hero) = 10000%N)
      as Hr.
    { unfold rounded_hundredths. symmetry.
      apply (N.div_unique _ _ _ (total_picks hero)); lia. }
    assert (((20000 * total_picks hero + total_picks hero)
               mod (2 * total_picks hero))%N = total_picks hero) as Hmod.
    { symmetry. apply (N.mod_unique _ _ 10000%N); lia. }
    rewrite Hr, Hmod in Hclose.
    destruct Hclose as [-> | [_ Htie]]; [done | lia].
Qed.

Lemma WinRate_between_0_and_100_witness :
  (0 < total_picks wisp)%N /\ (total_wins wisp <= total_picks wisp)%N
  /\ (total_picks wisp <= 10 ^ 11)%N
  /\ exists n : N, WinRate wisp = Number.point2 n /\ (n <= 10000)%N.
Proof.
  assert (0 < total_picks wisp)%N as Hpos by reflexivity.
  assert (total_wins wisp <= total_picks wisp)%N as Hle
    by (vm_compute; discriminate).
  assert (total_picks wisp <= 10 ^ 11)%N as Hbound
    by (vm_compute; discriminate).
  split; [exact Hpos|]. split; [exact Hle|]. split; [exact Hbound|].
  apply (WinRate_between_0_and_100 wisp Hpos Hle Hbound).
Defined.

End AggregatorMore.

(** ** Where [UpdatePage] stops early *)

Section EarlyFailures.

Context (env : Env).

(** X20. [UpdatePage] writes the page in the order of its statements,
    so a failure leaves it half written: with an attribute outside the
    four known ones only the name is written; with the constants of the
    hero missing the name, the attribute picture and the win rate are
    written but not the picture of the hero; with the popularity request
    failing all four are written and no row, and so it is when the
    answer lacks a phase object. All but the failing request end in a
    TypeError. *)
Theorem UpdatePage_half_written heroName hero page :
  GetHero (HERO_STATS env) heroName = Some hero ->
  (attr_dict (primary_attr hero) = None ->
   UpdatePage env heroName page
   = (set_hero_name (toUpperCase (localized_name hero)) page,
      Throw TypeError))
  /\ (forall attr,
        attr_dict (primary_attr hero) = Some attr ->
        HERO_CONSTANTS env !! hero_id hero = None ->
        UpdatePage env heroName page
        = (set_winrate ("Winrate: " +:+ WinRate hero +:+ "%")
             (set_attribute ("images/" +:+ attr +:+ ".png")
                (set_hero_name (toUpperCase (localized_name hero)) page)),
           Throw TypeError))
  /\ (forall attr constant,
        attr_dict (primary_attr hero) = Some attr ->
        HERO_CONSTANTS env !! hero_id hero = Some constant ->
        ItemPopularity env (hero_id hero) = RequestFailed ->
        UpdatePage env heroName page
        = (set_hero_image ("https://cdn.dota2.com/" +:+ hero_img constant)
             (set_winrate ("Winrate: " +:+ WinRate hero +:+ "%")
                (set_attribute ("images/" +:+ attr +:+ ".png")
                   (set_hero_name (toUpperCase (localized_name hero)) page))),
           Throw FetchError))
  /\ (forall attr constant,
        attr_dict (primary_attr hero) = Some attr ->
        HERO_CONSTANTS env !! hero_id hero = Some constant ->
        ItemPopularity env (hero_id hero) = PhaseMissing ->
        UpdatePage env heroName page
        = (set_hero_image ("https://cdn.dota2.com/" +:+ hero_img constant)
             (set_winrate ("Winrate: " +:+ WinRate hero +:+ "%")
                (set_attribute ("images/" +:+ attr +:+ ".png")
                   (set_hero_name (toUpperCase (localized_name hero)) page))),
           Throw TypeError)).
Proof.
  intros Hget. rewrite (UpdatePage_found _ _ _ _ Hget). cbn zeta.
  unfold MostBoughtItems, mbind, Handler_bind, modify, defined, mret,
    Handler_ret, throw, await.
  split; [|split; [|split]].
  - by intros ->.
  - by intros attr -> ->.
  - by intros attr constant -> -> ->.
  - by intros attr constant -> -> ->.
Qed.

End EarlyFailures.

(** A hero with an attribute that [attr_dict] does not know. *)
Lemma UpdatePage_half_written_witness :
  GetHero [mkHero 9 "npc_dota_hero_odd" "Odd" "luck" [] []] "odd"
  = Some (mkHero 9 "npc_dota_hero_odd" "Odd" "luck" [] [])
  /\ hero_name
       (UpdatePage
          {| HERO_STATS := [mkHero 9 "npc_dota_hero_odd" "Odd" "luck" [] []];
             HERO_CONSTANTS := ∅; ITEM_IDS := ∅; ITEM_CONSTANTS := ∅;
             ItemPopularity := fun _ => RequestFailed |}
          "odd" example_page).1 = "ODD".
Proof.
  set (env := {| HERO_STATS := [mkHero 9 "npc_dota_hero_odd" "Odd" "luck" [] []];
                 HERO_CONSTANTS := ∅; ITEM_IDS := ∅; ITEM_CONSTANTS := ∅;
                 ItemPopularity := fun _ => RequestFailed |}).
  assert (GetHero (HERO_STATS env) "odd"
          = Some (mkHero 9 "npc_dota_hero_odd" "Odd" "luck" [] [])) as Hget
    by reflexivity.
  split; [exact Hget|].
  destruct (UpdatePage_half_written env "odd" _ example_page Hget) as [H _].
  rewrite H; reflexivity.
Defined.
